(** * Lumbar exercise tracker: statistics, routines and session lifecycle

    A shallow embedding of the service and repository layer of the
    application (TypeScript), and the properties of its specification
    that concern

    - [SessionRepository.getStatistics]   (streak computation),
    - [ExerciseService.calculateTotalDuration],
      [RoutineService.calculateRoutineDuration] (duration estimate),
    - [ExerciseService.validateExercise],
    - [RoutineService.createRoutine], [RoutineService.deleteRoutine],
    - [SessionService.createSession], [SessionService.markExerciseComplete],
    - [SessionScreen.loadSession].

    Conventions of the embedding.

    - JavaScript numbers that hold counts, seconds and identifiers of
      rows are integers in the program; they are modelled by [Z].
    - An instant ([Date], ISO-8601 string with time) is its number of
      milliseconds since the epoch; [toISOString] and [new Date(iso)]
      are inverse to each other on instants, so the string is not kept.
    - A calendar date written [yyyy-MM-dd] is its day number (days
      since 1970-01-01).  On such strings the default [sort()] of
      JavaScript (code-unit order) is the order of the day numbers, and
      [differenceInDays] of two local midnights is the difference of
      the day numbers.
    - A JavaScript string is a [string] whose characters are the code
      units below 256.
    - [async] functions run to completion one after the other; a
      rejected promise / thrown [Error] is the [Err] case of [result]. *)

From Stdlib Require Import ZArith String Ascii Bool Lia.
From stdpp Require Import base option list sorting strings pretty.

(* ===================================================================== *)
(** ** JavaScript primitives used by the services *)
(* ===================================================================== *)

Module Js.

(** [throw new Error(msg)] against a normal return. *)
Inductive result (A : Type) : Type :=
| Ok (a : A)
| Err (message : string).
Global Arguments Ok {A} a.
Global Arguments Err {A} message.

Definition bind {A B} (r : result A) (k : A -> result B) : result B :=
  match r with
  | Ok a => k a
  | Err m => Err m
  end.

(** Truthiness of an optional number: [undefined] and [0] are falsy. *)
Definition truthy_num (o : option Z) : bool :=
  match o with
  | Some n => negb (n =? 0)%Z
  | None => false
  end.

(** Truthiness of an optional string: [undefined] and [''] are falsy. *)
Definition truthy_str (o : option string) : bool :=
  match o with
  | Some EmptyString => false
  | Some _ => true
  | None => false
  end.

(** Truthiness of an optional member of a string enumeration: only
    [undefined] is falsy, the tags are non-empty strings. *)
Definition truthy_enum {A} (o : option A) : bool :=
  match o with
  | Some _ => true
  | None => false
  end.

(** White space and line terminators of ECMAScript among the code
    units below 256: TAB, LF, VT, FF, CR, SP, NBSP. *)
Definition is_white (c : ascii) : bool :=
  let n := nat_of_ascii c in
  (n =? 9)%nat || (n =? 10)%nat || (n =? 11)%nat || (n =? 12)%nat
  || (n =? 13)%nat || (n =? 32)%nat || (n =? 160)%nat.

(** [String.prototype.trimStart]. *)
Fixpoint trimStart (s : string) : string :=
  match s with
  | EmptyString => EmptyString
  | String c s' => if is_white c then trimStart s' else s
  end.

(** [String.prototype.trimEnd]: a character is dropped when it is
    white and everything after it has been dropped. *)
Fixpoint trimEnd (s : string) : string :=
  match s with
  | EmptyString => EmptyString
  | String c s' =>
      match trimEnd s' with
      | EmptyString => if is_white c then EmptyString else String c EmptyString
      | t => String c t
      end
  end.

(** Empty or made of white space only. *)
Fixpoint all_white (s : string) : bool :=
  match s with
  | EmptyString => true
  | String c s' => is_white c && all_white s'
  end.

(** [String.prototype.trim]. *)
Definition trim (s : string) : string := trimEnd (trimStart s).

(** [s === ''] . *)
Definition is_empty (s : string) : bool :=
  match s with EmptyString => true | _ => false end.

(** [Math.ceil(n / d)] for an integer [n] and a positive integer [d]:
    the quotient of the program is a double; for the magnitudes of a
    duration it is the exact ceiling.  Where the program yields the
    double [-0] (for [-60 < n < 0]) the integer is [0]. *)
Definition ceil_div (n d : Z) : Z := (- ((- n) / d))%Z.

(** [Array.prototype.findIndex]: the first index whose element
    satisfies the predicate, [-1] when there is none. *)
Fixpoint findIndex_from {A} (p : A -> bool) (l : list A) (i : Z) : Z :=
  match l with
  | [] => (-1)%Z
  | x :: l' => if p x then i else findIndex_from p l' (i + 1)%Z
  end.

Definition findIndex {A} (p : A -> bool) (l : list A) : Z :=
  findIndex_from p l 0%Z.

(** [Array.prototype.find(p) || null] on objects. *)
Fixpoint find {A} (p : A -> bool) (l : list A) : option A :=
  match l with
  | [] => None
  | x :: l' => if p x then Some x else find p l'
  end.

(** [[...new Set(xs)]]: the elements in the order of their first
    occurrence. *)
Definition Set_add (acc : list Z) (x : Z) : list Z :=
  if bool_decide (x ∈ acc) then acc else acc ++ [x].

Definition new_Set (xs : list Z) : list Z := fold_left Set_add xs [].

End Js.

(* ===================================================================== *)
(** ** Domain models (domain/models) *)
(* ===================================================================== *)

Module Models.

Inductive ExerciseCategory : Type :=
| stretching | strengthening | flexibility | posture.

Inductive ExerciseType : Type :=
| reps_type       (* 'reps' *)
| duration_type.  (* 'duration' *)

Record Exercise : Type := mkExercise {
  ex_id : string;
  ex_name : string;
  ex_description : string;
  ex_category : ExerciseCategory;
  ex_type : ExerciseType;
  ex_reps : option Z;        (* reps?: number *)
  ex_duration : option Z;    (* duration?: number, seconds *)
  ex_targetMuscles : list string;
  ex_instructions : list string;
  ex_tips : list string;
  ex_warnings : list string
}.

(** [Partial<Exercise>]: every field may be missing. *)
Record PartialExercise : Type := mkPartialExercise {
  p_id : option string;
  p_name : option string;
  p_description : option string;
  p_category : option ExerciseCategory;
  p_type : option ExerciseType;
  p_reps : option Z;
  p_duration : option Z;
  p_targetMuscles : option (list string);
  p_instructions : option (list string);
  p_tips : option (list string);
  p_warnings : option (list string)
}.

Inductive RoutineType : Type := morning | evening | custom.

Record Routine : Type := mkRoutine {
  r_id : string;
  r_name : string;
  r_type : RoutineType;
  r_exerciseIds : list string;
  r_estimatedDuration : Z
}.

Record ExerciseCompletion : Type := mkCompletion {
  c_exerciseId : string;
  c_completed : bool;
  c_reps : option Z;
  c_duration : option Z
}.

Record SessionLog : Type := mkSession {
  s_id : string;
  s_routineId : string;
  s_startTime : Z;            (* instant, ms *)
  s_endTime : option Z;       (* instant, ms; undefined while in progress *)
  s_exercises : list ExerciseCompletion;
  s_completed : bool
}.

(** The [completionRate] field, [Math.round((completed / total) * 100)],
    is a computation on doubles and is left out of the record. *)
Record Statistics : Type := mkStatistics {
  totalSessions : Z;
  currentStreak : Z;
  longestStreak : Z;
  lastSessionDate : option Z  (* day number *)
}.

End Models.

(* ===================================================================== *)
(** ** data/repositories/SessionRepository: statistics over [session_logs] *)
(* ===================================================================== *)

Module SessionRepository.
Import Models.
Local Open Scope Z_scope.

(** A row of the table [session_logs].  [exercises_done] (JSON) and
    [notes] play no part in the statistics.  [mapToDb] fills [date_iso]
    with the date part of the ISO string of the start instant; the
    statistics read the column and nothing else of the time of a
    session. *)
Record DbSessionLog : Type := mkDbSessionLog {
  id : Z;
  routine_id : Z;
  date_iso : Z;                (* day number of the yyyy-MM-dd text *)
  start_timestamp : Z;
  end_timestamp : option Z;
  completed : Z
}.

(** [SELECT date_iso, completed FROM session_logs WHERE completed = 1
     ORDER BY date_iso DESC], projected on [date_iso]. *)
Definition completedSessions (session_logs : list DbSessionLog) : list Z :=
  merge_sort (flip Z.le)
    (map date_iso (List.filter (fun r => completed r =? 1) session_logs)).

(** [[...new Set(completedSessions.map(s => s.date_iso))].sort()],
    the ascending list before [reverse()]. *)
Definition sortedDates (session_logs : list DbSessionLog) : list Z :=
  merge_sort Z.le (Js.new_Set (completedSessions session_logs)).

(** [[...new Set(completedSessions.map(s => s.date_iso))].sort().reverse()] *)
Definition uniqueDates (session_logs : list DbSessionLog) : list Z :=
  reverse (sortedDates session_logs).

(** A completed session exists on day [d]. *)
Definition completedOn (session_logs : list DbSessionLog) (d : Z) : Prop :=
  ∃ r, r ∈ session_logs ∧ completed r = 1 ∧ date_iso r = d.

(** State of the two loops: [currentStreak], [longestStreak], [tempStreak]. *)
Record counters : Type := mkCounters {
  cur : Z;
  longest : Z;
  temp : Z
}.

(** First loop, from index [i] on.  [prev] is [uniqueDates[i-1]], and
    [None] exactly when [i = 0].  The [else] branch is the [break]. *)
Fixpoint currentLoop (today : Z) (prev : option Z) (dates : list Z)
    (st : counters) : counters :=
  match dates with
  | [] => st
  | d :: rest =>
      let daysDiff := today - d in
      match prev with
      | None =>
          if (daysDiff =? 0) || (daysDiff =? 1) then
            let st1 := mkCounters (cur st + 1) (longest st) 1 in
            currentLoop today (Some d) rest
              (mkCounters (cur st1) (Z.max (longest st1) (temp st1)) (temp st1))
          else st
      | Some p =>
          if p - d =? 1 then
            let st1 := mkCounters (cur st + 1) (longest st) (temp st + 1) in
            currentLoop today (Some d) rest
              (mkCounters (cur st1) (Z.max (longest st1) (temp st1)) (temp st1))
          else st
      end
  end.

(** Second loop, from index [i >= 1] on; [prev] is [uniqueDates[i-1]]. *)
Fixpoint longestLoop (prev : Z) (dates : list Z) (st : counters) : counters :=
  match dates with
  | [] => st
  | d :: rest =>
      if prev - d =? 1 then
        longestLoop d rest
          (mkCounters (cur st) (Z.max (longest st) (temp st + 1)) (temp st + 1))
      else
        longestLoop d rest (mkCounters (cur st) (longest st) 1)
  end.

(** [getStatistics], with [today] the day number of
    [startOfDay(new Date())]. *)
Definition getStatistics (today : Z) (session_logs : list DbSessionLog)
    : Statistics :=
  let total := Z.of_nat (length session_logs) in
  let dates := uniqueDates session_logs in
  let st1 := currentLoop today None dates (mkCounters 0 0 0) in
  let st2 :=
    match dates with
    | [] => mkCounters (cur st1) (longest st1) 1
    | d0 :: rest => longestLoop d0 rest (mkCounters (cur st1) (longest st1) 1)
    end in
  {| totalSessions := total;
     currentStreak := cur st2;
     longestStreak := longest st2;
     lastSessionDate := head dates |}.

(** Invariant of the first loop: before index 0 nothing is counted;
    afterwards [tempStreak] mirrors [currentStreak], and
    [longestStreak] has been raised to it. *)
Definition currentLoop_inv (prev : option Z) (st : counters) : Prop :=
  match prev with
  | None => cur st = 0 ∧ 0 ≤ longest st
  | Some _ => cur st = temp st ∧ cur st ≤ longest st
  end.

(** One completed session on day [d]. *)
Definition completedRow (d : Z) : DbSessionLog :=
  {| id := 1; routine_id := 1; date_iso := d;
     start_timestamp := d * 86400000 + 25200000;
     end_timestamp := Some (d * 86400000 + 25800000);
     completed := 1 |}.

(** The longest streak in the words of the specification: a running
    counter starts at 1 if there is a date (0 otherwise), grows on
    each adjacent pair one day apart, is reset to 1 by a gap, and the
    result is the largest value the counter takes. *)
Fixpoint longestRun_from (prev : Z) (dates : list Z) (run best : Z) : Z :=
  match dates with
  | [] => best
  | d :: rest =>
      let run' := if prev - d =? 1 then run + 1 else 1 in
      longestRun_from d rest run' (Z.max best run')
  end.

Definition longestRun_spec (dates : list Z) : Z :=
  match dates with
  | [] => 0
  | d0 :: rest => longestRun_from d0 rest 1 1
  end.

End SessionRepository.

(* ===================================================================== *)
(** ** domain/interfaces/IRepositories *)
(* ===================================================================== *)

Module IRepositories.
Import Models Js.

(** [Omit<SessionLog, 'id'>] *)
Record NewSession : Type := mkNewSession {
  n_routineId : string;
  n_startTime : Z;
  n_endTime : option Z;
  n_exercises : list ExerciseCompletion;
  n_completed : bool
}.

(** The repositories are objects with private state; a method is a
    function from the state of the object to its next state and its
    result.  Only the methods the services below call are listed. *)
Class IExerciseRepository (E : Type) : Type := {
  exercise_getById : E -> string -> option Exercise
}.

Class IRoutineRepository (R : Type) : Type := {
  routine_getById : R -> string -> option Routine;
  routine_save : R -> Routine -> R;
  routine_delete : R -> string -> R
}.

Class ISessionRepository (S : Type) : Type := {
  session_getById : S -> string -> option SessionLog;
  session_save : S -> NewSession -> S * string;
  session_update : S -> SessionLog -> S
}.

End IRepositories.

(* ===================================================================== *)
(** ** In-memory repositories (data/repositories/__mocks__)

    Identifier lookup, insertion with a fresh identifier, update and
    deletion by identifier behave as the SQLite tables do on their
    primary key. *)
(* ===================================================================== *)

Module MockExerciseRepository.
Import Models Js IRepositories.

Definition t : Type := list Exercise.

(** [this.exercises.find(e => e.id === id) || null] *)
Definition getById (exercises : t) (id : string) : option Exercise :=
  Js.find (fun e => String.eqb (ex_id e) id) exercises.

(** The exercises the repository starts with (the fields of the
    [Exercise] interface above). *)
Definition seedExercise (id name : string) (category : ExerciseCategory)
    (type : ExerciseType) (reps duration : option Z) (muscles : list string)
    : Exercise :=
  {| ex_id := id; ex_name := name; ex_description := "Test description";
     ex_category := category; ex_type := type;
     ex_reps := reps; ex_duration := duration;
     ex_targetMuscles := muscles;
     ex_instructions := ["Test instruction"%string];
     ex_tips := ["Test tip"%string];
     ex_warnings := ["Test warning"%string] |}.

Definition initial : t :=
  [ seedExercise "1" "McKenzie Back Extension" stretching reps_type
      (Some 10%Z) None ["lower back"%string];
    seedExercise "2" "Modified Plank" strengthening duration_type
      None (Some 30%Z) ["core"%string];
    seedExercise "3" "Bird-Dog" strengthening reps_type
      (Some 10%Z) None ["core"%string; "back"%string];
    seedExercise "4" "Glute Bridge" strengthening reps_type
      (Some 12%Z) None ["glutes"%string; "lower back"%string] ].

#[global] Instance repo : IExerciseRepository t :=
  {| exercise_getById := getById |}.

End MockExerciseRepository.

Module MockRoutineRepository.
Import Models Js IRepositories.
Local Open Scope Z_scope.

Record t : Type := mk {
  routines : list Routine;
  nextId : Z
}.

(** [String(n)] for an integer. *)
Definition String_of (n : Z) : string := pretty n.

Definition getById (repo : t) (id : string) : option Routine :=
  Js.find (fun r => String.eqb (r_id r) id) (routines repo).

(** [{ ...routine, id: String(this.nextId++) }] is pushed. *)
Definition save (repo : t) (routine : Routine) : t :=
  let newRoutine :=
    {| r_id := String_of (nextId repo);
       r_name := r_name routine;
       r_type := r_type routine;
       r_exerciseIds := r_exerciseIds routine;
       r_estimatedDuration := r_estimatedDuration routine |} in
  {| routines := routines repo ++ [newRoutine];
     nextId := nextId repo + 1 |}.

(** [this.routines.filter(r => r.id !== id)] *)
Definition delete (repo : t) (id : string) : t :=
  {| routines := List.filter (fun r => negb (String.eqb (r_id r) id)) (routines repo);
     nextId := nextId repo |}.

(** The two routines the repository starts with. *)
Definition initial : t :=
  {| routines :=
       [ {| r_id := "1"; r_name := "Morning Routine"; r_type := morning;
            r_exerciseIds := ["1"; "3"; "4"]%string;
            r_estimatedDuration := 15 |};
         {| r_id := "2"; r_name := "Evening Routine"; r_type := evening;
            r_exerciseIds := ["2"; "3"; "4"]%string;
            r_estimatedDuration := 20 |} ];
     nextId := 3 |}.

#[global] Instance repo : IRoutineRepository t :=
  {| routine_getById := getById;
     routine_save := save;
     routine_delete := delete |}.

End MockRoutineRepository.

Module MockSessionRepository.
Import Models Js IRepositories.
Local Open Scope Z_scope.

Record t : Type := mk {
  sessions : list SessionLog;
  nextId : Z
}.

Definition getById (repo : t) (id : string) : option SessionLog :=
  Js.find (fun s => String.eqb (s_id s) id) (sessions repo).

(** [{ ...session, id: (this.nextId++).toString() }] is pushed and its
    id returned. *)
Definition save (repo : t) (session : NewSession) : t * string :=
  let newSession :=
    {| s_id := pretty (nextId repo);
       s_routineId := n_routineId session;
       s_startTime := n_startTime session;
       s_endTime := n_endTime session;
       s_exercises := n_exercises session;
       s_completed := n_completed session |} in
  ({| sessions := sessions repo ++ [newSession];
      nextId := nextId repo + 1 |},
   s_id newSession).

(** [index = findIndex(s => s.id === session.id);
     if (index !== -1) this.sessions[index] = session]. *)
Definition update (repo : t) (session : SessionLog) : t :=
  let index :=
    Js.findIndex (fun s => String.eqb (s_id s) (s_id session)) (sessions repo) in
  if index =? -1 then repo
  else {| sessions := <[Z.to_nat index := session]> (sessions repo);
          nextId := nextId repo |}.

(** [sessions = []; nextId = 1] *)
Definition initial : t := {| sessions := []; nextId := 1 |}.

#[global] Instance repo : ISessionRepository t :=
  {| session_getById := getById;
     session_save := save;
     session_update := update |}.

End MockSessionRepository.

(* ===================================================================== *)
(** ** services/ExerciseService *)
(* ===================================================================== *)

Module ExerciseService.
Import Models Js.
Local Open Scope Z_scope.

(** Body of the [for] loop of [calculateTotalDuration]:
    [if (exercise.duration) ... else if (exercise.reps) ...]. *)
Definition addExercise (totalSeconds : Z) (exercise : Exercise) : Z :=
  if truthy_num (ex_duration exercise) then
    totalSeconds + default 0 (ex_duration exercise)
  else if truthy_num (ex_reps exercise) then
    totalSeconds + default 0 (ex_reps exercise) * 3
  else totalSeconds.

(** [calculateTotalDuration(exercises)] *)
Definition calculateTotalDuration (exercises : list Exercise) : Z :=
  let totalSeconds := fold_left addExercise exercises 0 in
  let totalSeconds := totalSeconds + (Z.of_nat (length exercises) - 1) * 10 in
  ceil_div totalSeconds 60.

(** [validateExercise(exercise)]: [null] is [None]. *)
Definition validateExercise (exercise : PartialExercise) : option string :=
  if negb (truthy_str (p_name exercise))
     || is_empty (trim (default EmptyString (p_name exercise))) then
    Some "Name is required"%string
  else if negb (truthy_str (p_description exercise))
     || is_empty (trim (default EmptyString (p_description exercise))) then
    Some "Description is required"%string
  else if negb (truthy_enum (p_category exercise)) then
    Some "Category is required"%string
  else if negb (truthy_num (p_reps exercise))
          && negb (truthy_num (p_duration exercise)) then
    Some "Either reps or duration must be specified"%string
  else None.

(** The estimate in the words of the specification: the measurement
    mode of the exercise selects its contribution, and rest is counted
    from the second exercise on. *)
Definition contribution_spec (e : Exercise) : Z :=
  match ex_type e with
  | duration_type => default 0 (ex_duration e)
  | reps_type => default 0 (ex_reps e) * 3
  end.

Fixpoint sum_contributions_spec (exercises : list Exercise) : Z :=
  match exercises with
  | [] => 0
  | e :: rest => contribution_spec e + sum_contributions_spec rest
  end.

Definition rest_spec (count : Z) : Z :=
  if 2 <=? count then 10 * (count - 1) else 0.

Definition totalSeconds_spec (exercises : list Exercise) : Z :=
  sum_contributions_spec exercises + rest_spec (Z.of_nat (length exercises)).

(** [m] is the ceiling of [n / 60]. *)
Definition is_ceil_minutes (n m : Z) : Prop := 60 * (m - 1) < n ∧ n ≤ 60 * m.

(** Data-model invariant: the measurement mode tells which of the two
    targets is populated; the other one is absent. *)
Definition mode_wf (e : Exercise) : Prop :=
  match ex_type e with
  | duration_type => ex_reps e = None
  | reps_type => ex_duration e = None
  end.

(** The estimate read off the two targets alone: the duration counts
    when it is there and is not 0, otherwise three seconds count per
    repetition; the measurement mode plays no part. *)
Definition contribution_by_target (e : Exercise) : Z :=
  match ex_duration e with
  | Some d => if d =? 0 then default 0 (ex_reps e) * 3 else d
  | None => default 0 (ex_reps e) * 3
  end.

Fixpoint sum_contributions_by_target (exercises : list Exercise) : Z :=
  match exercises with
  | [] => 0
  | e :: rest => contribution_by_target e + sum_contributions_by_target rest
  end.

Definition totalSeconds_by_target (exercises : list Exercise) : Z :=
  sum_contributions_by_target exercises
  + rest_spec (Z.of_nat (length exercises)).

(** The four checks of the validation, as conditions on the
    definition.  A string is present when it is there and is not
    blank; a target is present when it is there and is not 0. *)
Definition name_present (e : PartialExercise) : Prop :=
  ∃ s, p_name e = Some s ∧ all_white s = false.

Definition description_present (e : PartialExercise) : Prop :=
  ∃ s, p_description e = Some s ∧ all_white s = false.

Definition category_present (e : PartialExercise) : Prop :=
  ∃ c, p_category e = Some c.

Definition reps_present (e : PartialExercise) : Prop :=
  ∃ n, p_reps e = Some n ∧ n ≠ 0.

Definition duration_present (e : PartialExercise) : Prop :=
  ∃ n, p_duration e = Some n ∧ n ≠ 0.

(** The fourth check in the words of the specification: exactly one
    of the two targets is present. *)
Definition exactly_one_target (e : PartialExercise) : Prop :=
  (reps_present e ∧ ¬ duration_present e)
  ∨ (¬ reps_present e ∧ duration_present e).

(** The two exercises of the test of the estimate: 30 s and 60 s. *)
Definition timedExercise (id name : string) (seconds : Z) : Exercise :=
  {| ex_id := id; ex_name := name; ex_description := "Test";
     ex_category := strengthening; ex_type := duration_type;
     ex_reps := None; ex_duration := Some seconds;
     ex_targetMuscles := []; ex_instructions := []; ex_tips := [];
     ex_warnings := [] |}.

Definition plankAndHold : list Exercise :=
  [timedExercise "1" "Plank" 30; timedExercise "2" "Hold" 60].

(** A rep-based exercise that also carries a duration. *)
Definition repsWithDuration : Exercise :=
  {| ex_id := "1"; ex_name := "Squats"; ex_description := "Test";
     ex_category := strengthening; ex_type := reps_type;
     ex_reps := Some 10; ex_duration := Some 20;
     ex_targetMuscles := []; ex_instructions := []; ex_tips := [];
     ex_warnings := [] |}.

(** A rep-based exercise of 100 repetitions that also carries a
    duration of 20 s: [reps] and [duration] are both optional fields
    of [Exercise], whatever [type] says. *)
Definition hundredRepsWithDuration : Exercise :=
  {| ex_id := "1"; ex_name := "Squats"; ex_description := "Test";
     ex_category := strengthening; ex_type := reps_type;
     ex_reps := Some 100; ex_duration := Some 20;
     ex_targetMuscles := []; ex_instructions := []; ex_tips := [];
     ex_warnings := [] |}.

(** What [ExerciseRepository.mapFromDb] makes of a row with
    [duration_seconds = 0] and [repetitions = 100]: the type is
    ['duration'] because the column is not [null]. *)
Definition zeroDurationWithReps : Exercise :=
  {| ex_id := "2"; ex_name := "Lunges"; ex_description := "Test";
     ex_category := strengthening; ex_type := duration_type;
     ex_reps := Some 100; ex_duration := Some 0;
     ex_targetMuscles := []; ex_instructions := []; ex_tips := [];
     ex_warnings := [] |}.

(** A definition with a name, a description, a category, and both
    targets. *)
Definition bothTargets : PartialExercise :=
  {| p_id := None; p_name := Some "Test"%string;
     p_description := Some "Test description"%string;
     p_category := Some strengthening; p_type := None;
     p_reps := Some 10; p_duration := Some 30;
     p_targetMuscles := None; p_instructions := None; p_tips := None;
     p_warnings := None |}.

End ExerciseService.

(* ===================================================================== *)
(** ** services/RoutineService *)
(* ===================================================================== *)

Module RoutineService.
Import Models Js IRepositories.
Local Open Scope Z_scope.

Section Service.
Context {R E : Type} `{IRoutineRepository R} `{IExerciseRepository E}.

(** The loop of [getRoutineExercises]: ids that do not resolve are
    skipped. *)
Fixpoint resolveExercises (exerciseRepository : E) (exerciseIds : list string)
    : list Exercise :=
  match exerciseIds with
  | [] => []
  | exerciseId :: rest =>
      match exercise_getById exerciseRepository exerciseId with
      | Some exercise => exercise :: resolveExercises exerciseRepository rest
      | None => resolveExercises exerciseRepository rest
      end
  end.

Definition getRoutineExercises (routineRepository : R) (exerciseRepository : E)
    (routineId : string) : result (list Exercise) :=
  match routine_getById routineRepository routineId with
  | None => Err "Routine not found"
  | Some routine => Ok (resolveExercises exerciseRepository (r_exerciseIds routine))
  end.

(** Body of the [for] loop of [calculateRoutineDuration] (the same
    text as in [ExerciseService.calculateTotalDuration]). *)
Definition addExercise (totalSeconds : Z) (exercise : Exercise) : Z :=
  if truthy_num (ex_duration exercise) then
    totalSeconds + default 0 (ex_duration exercise)
  else if truthy_num (ex_reps exercise) then
    totalSeconds + default 0 (ex_reps exercise) * 3
  else totalSeconds.

Definition calculateRoutineDuration (routineRepository : R)
    (exerciseRepository : E) (routineId : string) : result Z :=
  bind (getRoutineExercises routineRepository exerciseRepository routineId)
    (fun exercises =>
       let totalSeconds := fold_left addExercise exercises 0 in
       let totalSeconds :=
         totalSeconds + (Z.of_nat (length exercises) - 1) * 10 in
       Ok (ceil_div totalSeconds 60)).

(** The validation loop of [createRoutine]: the first id that does
    not resolve, if any. *)
Fixpoint firstUnknownId (exerciseRepository : E) (exerciseIds : list string)
    : option string :=
  match exerciseIds with
  | [] => None
  | id :: rest =>
      match exercise_getById exerciseRepository id with
      | None => Some id
      | Some _ => firstUnknownId exerciseRepository rest
      end
  end.

(** Every id of the list resolves in the catalog. *)
Definition all_known (exerciseRepository : E) (ids : list string) : Prop :=
  Forall (fun id => is_Some (exercise_getById exerciseRepository id)) ids.

(** The object handed to [routineRepository.save]. *)
Definition newRoutine (title : string) (exerciseIds : list string) : Routine :=
  {| r_id := "0";
     r_name := title;
     r_type := custom;
     r_exerciseIds := exerciseIds;
     r_estimatedDuration := 0 |}.

(** [createRoutine(title, exerciseIds)]: the state of the routine
    repository afterwards and the outcome. *)
Definition createRoutine (routineRepository : R) (exerciseRepository : E)
    (title : string) (exerciseIds : list string) : R * result unit :=
  if is_empty title || is_empty (trim title) then
    (routineRepository, Err "Routine title is required")
  else if (Z.of_nat (length exerciseIds) =? 0) then
    (routineRepository, Err "Routine must contain at least one exercise")
  else
    match firstUnknownId exerciseRepository exerciseIds with
    | Some id =>
        (routineRepository,
         Err ("Exercise with ID " ++ id ++ " not found")%string)
    | None =>
        (routine_save routineRepository (newRoutine title exerciseIds), Ok tt)
    end.

(** [deleteRoutine(routineId)] *)
Definition deleteRoutine (routineRepository : R) (routineId : string)
    : R * result unit :=
  match routine_getById routineRepository routineId with
  | None => (routineRepository, Err "Routine not found")
  | Some routine =>
      match r_type routine with
      | morning | evening =>
          (routineRepository, Err "Cannot delete default routines")
      | custom => (routine_delete routineRepository routineId, Ok tt)
      end
  end.

End Service.

End RoutineService.

(* ===================================================================== *)
(** ** services/SessionService *)
(* ===================================================================== *)

Module SessionService.
Import Models Js IRepositories.
Local Open Scope Z_scope.

Section Service.
Context {S : Type} `{ISessionRepository S}.

(** [createSession(routineId)]; [now] is [new Date()]. *)
Definition createSession (repository : S) (now : Z) (routineId : string)
    : S * string :=
  let session :=
    {| n_routineId := routineId;
       n_startTime := now;
       n_endTime := None;
       n_exercises := [];
       n_completed := false |} in
  session_save repository session.

(** The completion collection after the upsert of
    [markExerciseComplete]. *)
Definition upsertCompletion (exercises : list ExerciseCompletion)
    (completion : ExerciseCompletion) : list ExerciseCompletion :=
  let existingIndex :=
    findIndex
      (fun e => String.eqb (c_exerciseId e) (c_exerciseId completion))
      exercises in
  if 0 <=? existingIndex then
    <[Z.to_nat existingIndex := completion]> exercises
  else
    exercises ++ [completion].

(** The session object after the assignment or the [push] of
    [markExerciseComplete]. *)
Definition withCompletion (session : SessionLog)
    (completion : ExerciseCompletion) : SessionLog :=
  {| s_id := s_id session;
     s_routineId := s_routineId session;
     s_startTime := s_startTime session;
     s_endTime := s_endTime session;
     s_exercises := upsertCompletion (s_exercises session) completion;
     s_completed := s_completed session |}.

(** [markExerciseComplete(sessionId, exerciseId, reps?, duration?)].
    The session object is changed in place and handed to [update];
    with the in-memory repository it is the stored object itself,
    which [update] then stores again, so the repository afterwards
    is the same in both readings. *)
Definition markExerciseComplete (repository : S) (sessionId exerciseId : string)
    (reps duration : option Z) : S * result unit :=
  match session_getById repository sessionId with
  | None => (repository, Err "Session not found")
  | Some session =>
      let completion :=
        {| c_exerciseId := exerciseId;
           c_completed := true;
           c_reps := reps;
           c_duration := duration |} in
      (session_update repository (withCompletion session completion), Ok tt)
  end.

End Service.

End SessionService.

(* ===================================================================== *)
(** ** presentation/screens/SessionScreen: [loadSession] *)
(* ===================================================================== *)

Module SessionScreen.
Import Models Js IRepositories.

(** The React state of the screen and what it asked of the
    navigation and of [Alert]. *)
Record Screen : Type := mkScreen {
  exercises : list Exercise;
  sessionId : option string;
  loading : bool;
  title : option string;
  alert : option (string * string);
  wentBack : bool
}.

Definition initialScreen : Screen :=
  {| exercises := []; sessionId := None; loading := true;
     title := None; alert := None; wentBack := false |}.

Section Screen.
Context {R E S : Type} `{IRoutineRepository R} `{IExerciseRepository E}
        `{ISessionRepository S}.

(** The [try] block of [loadSession]. *)
Definition startSession (routineRepository : R) (exerciseRepository : E)
    (sessionRepository : S) (now : Z) (routineId : string)
    : S * result (list Exercise * string) :=
  match RoutineService.getRoutineExercises
          routineRepository exerciseRepository routineId with
  | Err m => (sessionRepository, Err m)
  | Ok routineExercises =>
      let '(sessionRepository', newSessionId) :=
        SessionService.createSession sessionRepository now routineId in
      (sessionRepository', Ok (routineExercises, newSessionId))
  end.

(** [loadSession()], with [catch] and [finally]. *)
Definition loadSession (routineRepository : R) (exerciseRepository : E)
    (sessionRepository : S) (now : Z) (routineId routineName : string)
    (screen : Screen) : S * Screen :=
  match startSession routineRepository exerciseRepository
          sessionRepository now routineId with
  | (sessionRepository', Ok (routineExercises, newSessionId)) =>
      (sessionRepository',
       {| exercises := routineExercises;
          sessionId := Some newSessionId;
          loading := false;
          title := Some routineName;
          alert := alert screen;
          wentBack := wentBack screen |})
  | (sessionRepository', Err _) =>
      (sessionRepository',
       {| exercises := exercises screen;
          sessionId := sessionId screen;
          loading := false;
          title := title screen;
          alert := Some ("Error", "Failed to start session")%string;
          wentBack := true |})
  end.

End Screen.

End SessionScreen.

(* ===================================================================== *)
(** ** Concrete histories and repositories (the cases of the tests) *)
(* ===================================================================== *)

Module Cases.
Import Models Js IRepositories SessionRepository.
Local Open Scope Z_scope.

(** A day and an instant on that day. *)
Definition today : Z := 20000.
Definition now : Z := 20000 * 86400000 + 25200000.

Definition row (rowId day done : Z) : DbSessionLog :=
  {| id := rowId; routine_id := 1; date_iso := day;
     start_timestamp := day * 86400000 + 25200000;
     end_timestamp :=
       if done =? 1 then Some (day * 86400000 + 25800000) else None;
     completed := done |}.

(** Completed sessions today (twice), yesterday, two days ago and four
    days ago; an unfinished session three days ago. *)
Definition history : list DbSessionLog :=
  [ row 7 20000 1; row 6 20000 1; row 5 19999 1; row 4 19998 1;
    row 3 19997 0; row 2 19996 1 ].

(** A catalog that holds the rep-based exercise with a duration, and a
    routine made of that exercise alone. *)
Definition squatCatalog : MockExerciseRepository.t :=
  [ExerciseService.hundredRepsWithDuration].

Definition squatRoutines : MockRoutineRepository.t :=
  MockRoutineRepository.mk
    [ {| r_id := "1"; r_name := "Squats only"; r_type := custom;
         r_exerciseIds := ["1"%string]; r_estimatedDuration := 0 |} ] 2.

Definition routines0 : MockRoutineRepository.t := MockRoutineRepository.initial.
Definition catalog0 : MockExerciseRepository.t := MockExerciseRepository.initial.

(** The routine repository after ["My Routine"] was created. *)
Definition routines1 : MockRoutineRepository.t :=
  (RoutineService.createRoutine routines0 catalog0
     "My Routine" ["1"; "2"]%string).1.

(** One session of routine 1, then 10 repetitions of exercise 1
    recorded in it. *)
Definition sessions1 : MockSessionRepository.t :=
  (SessionService.createSession MockSessionRepository.initial now "1").1.

Definition sessions2 : MockSessionRepository.t :=
  (SessionService.markExerciseComplete sessions1 "1" "1" (Some 10) None).1.

End Cases.

(* ===================================================================== *)
(** ** The remaining methods of the repositories *)
(* ===================================================================== *)

Module Dates.
Local Open Scope Z_scope.

(** The date part of [toISOString()] of an instant, as a day number:
    [iso.split('T')[0]], and the date that [iso.startsWith(date)]
    compares with. *)
Definition msPerDay : Z := 86400000.

Definition isoDate (instant : Z) : Z := instant / msPerDay.

End Dates.

Module RepositoryMethods.
Import Models Js IRepositories.

(** The methods of [IRoutineRepository] and [ISessionRepository] that
    the services of the first part do not call.  Dates are day numbers. *)
Class IRoutineRepositoryRest (R : Type) : Type := {
  routine_getAll : R -> list Routine;
  routine_getByType : R -> string -> option Routine;
  routine_update : R -> Routine -> R
}.

Class ISessionRepositoryRest (S : Type) : Type := {
  session_getAll : S -> list SessionLog;
  session_getByDate : S -> Z -> list SessionLog;
  session_getByDateRange : S -> Z -> Z -> list SessionLog;
  session_delete : S -> string -> S
}.

End RepositoryMethods.

Module MockRoutineMethods.
Import Models Js IRepositories RepositoryMethods.
Local Open Scope Z_scope.

(** [[...this.routines]] *)
Definition getAll (repo : MockRoutineRepository.t) : list Routine :=
  MockRoutineRepository.routines repo.

(** The text of a routine kind. *)
Definition typeText (type : RoutineType) : string :=
  match type with
  | morning => "morning"
  | evening => "evening"
  | custom => "custom"
  end.

(** [this.routines.find(r => r.type === type) || null] *)
Definition getByType (repo : MockRoutineRepository.t) (type : string)
    : option Routine :=
  Js.find (fun r => String.eqb (typeText (r_type r)) type)
    (MockRoutineRepository.routines repo).

(** [index = findIndex(r => r.id === routine.id);
     if (index >= 0) this.routines[index] = routine] *)
Definition update (repo : MockRoutineRepository.t) (routine : Routine)
    : MockRoutineRepository.t :=
  let index :=
    Js.findIndex (fun r => String.eqb (r_id r) (r_id routine))
      (MockRoutineRepository.routines repo) in
  if 0 <=? index then
    {| MockRoutineRepository.routines :=
         <[Z.to_nat index := routine]> (MockRoutineRepository.routines repo);
       MockRoutineRepository.nextId := MockRoutineRepository.nextId repo |}
  else repo.

#[global] Instance repo : IRoutineRepositoryRest MockRoutineRepository.t :=
  {| routine_getAll := getAll;
     routine_getByType := getByType;
     routine_update := update |}.

(** The ids were handed out by [save]: they are the decimal text of
    numbers below [nextId], each used once. *)
Definition ids_issued (repo : MockRoutineRepository.t) : Prop :=
  NoDup (r_id <$> MockRoutineRepository.routines repo)
  ∧ Forall (fun r => ∃ k, k < MockRoutineRepository.nextId repo
                          ∧ r_id r = pretty k)
      (MockRoutineRepository.routines repo).

End MockRoutineMethods.

Module MockSessionMethods.
Import Models Js IRepositories RepositoryMethods.
Local Open Scope Z_scope.

(** [[...this.sessions]] *)
Definition getAll (repo : MockSessionRepository.t) : list SessionLog :=
  MockSessionRepository.sessions repo.

(** [this.sessions.filter(s => s.startTime.startsWith(date_iso))] *)
Definition getByDate (repo : MockSessionRepository.t) (date_iso : Z)
    : list SessionLog :=
  List.filter (fun s => Dates.isoDate (s_startTime s) =? date_iso)
    (MockSessionRepository.sessions repo).

(** [sessionDate >= start_date && sessionDate <= end_date] on
    [s.startTime.split('T')[0]] *)
Definition getByDateRange (repo : MockSessionRepository.t)
    (start_date end_date : Z) : list SessionLog :=
  List.filter
    (fun s => (start_date <=? Dates.isoDate (s_startTime s))
              && (Dates.isoDate (s_startTime s) <=? end_date))
    (MockSessionRepository.sessions repo).

(** [this.sessions = this.sessions.filter(s => s.id !== id)] *)
Definition delete (repo : MockSessionRepository.t) (id : string)
    : MockSessionRepository.t :=
  {| MockSessionRepository.sessions :=
       List.filter (fun s => negb (String.eqb (s_id s) id))
         (MockSessionRepository.sessions repo);
     MockSessionRepository.nextId := MockSessionRepository.nextId repo |}.

#[global] Instance repo : ISessionRepositoryRest MockSessionRepository.t :=
  {| session_getAll := getAll;
     session_getByDate := getByDate;
     session_getByDateRange := getByDateRange;
     session_delete := delete |}.

(** The ids were handed out by [save]: they are the decimal text of
    numbers below [nextId], each used once. *)
Definition ids_issued (repo : MockSessionRepository.t) : Prop :=
  NoDup (s_id <$> MockSessionRepository.sessions repo)
  ∧ Forall (fun s => ∃ k, k < MockSessionRepository.nextId repo
                          ∧ s_id s = pretty k)
      (MockSessionRepository.sessions repo).

End MockSessionMethods.

(* ===================================================================== *)
(** ** The remaining methods of the services *)
(* ===================================================================== *)

Module SessionServiceRest.
Import Models Js IRepositories RepositoryMethods.
Local Open Scope Z_scope.

Section Service.
Context {S : Type} `{ISessionRepository S} `{ISessionRepositoryRest S}.

(** The session object after the two assignments of [finishSession]. *)
Definition finished (session : SessionLog) (now : Z) : SessionLog :=
  {| s_id := s_id session;
     s_routineId := s_routineId session;
     s_startTime := s_startTime session;
     s_endTime := Some now;
     s_exercises := s_exercises session;
     s_completed := true |}.

(** [finishSession(sessionId)]; [now] is [new Date()]. *)
Definition finishSession (repository : S) (now : Z) (sessionId : string)
    : S * result unit :=
  match session_getById repository sessionId with
  | None => (repository, Err "Session not found")
  | Some session => (session_update repository (finished session now), Ok tt)
  end.

(** [Array.prototype.slice(0, end)] for an integer [end]: a negative
    [end] counts from the end of the array. *)
Definition slice0 {A} (l : list A) (end_ : Z) : list A :=
  if end_ <? 0 then take (Z.to_nat (Z.of_nat (length l) + end_)) l
  else take (Z.to_nat end_) l.

(** [getHistory(limit?)]: [limit ? allSessions.slice(0, limit) : allSessions] *)
Definition getHistory (repository : S) (limit : option Z) : list SessionLog :=
  let allSessions := session_getAll repository in
  if truthy_num limit then slice0 allSessions (default 0 limit)
  else allSessions.

(** [getSessionsForDate(date)]; [dateIso] is [format(date, 'yyyy-MM-dd')]. *)
Definition getSessionsForDate (repository : S) (dateIso : Z) : list SessionLog :=
  session_getByDate repository dateIso.

(** [getSessionsForDateRange(startDate, endDate)] *)
Definition getSessionsForDateRange (repository : S) (startIso endIso : Z)
    : list SessionLog :=
  session_getByDateRange repository startIso endIso.

(** [Math.round(durationMs / 1000 / 60)]: the nearest integer, a half
    goes up.  The two quotients of the program are doubles; a duration
    in milliseconds is far from the magnitudes where they differ from
    the exact value. *)
Definition round_minutes (durationMs : Z) : Z := (durationMs + 30000) / 60000.

(** [calculateSessionDuration(session)] *)
Definition calculateSessionDuration (session : SessionLog) : Z :=
  match s_endTime session with
  | None => 0
  | Some endMs => round_minutes (endMs - s_startTime session)
  end.

(** [hasCompletedToday()]; [today] is [format(new Date(), 'yyyy-MM-dd')]. *)
Definition hasCompletedToday (repository : S) (today : Z) : bool :=
  existsb s_completed (session_getByDate repository today).

(** [deleteSession(sessionId)] *)
Definition deleteSession (repository : S) (sessionId : string) : S :=
  session_delete repository sessionId.

End Service.

End SessionServiceRest.

Module RoutineServiceRest.
Import Models Js IRepositories RepositoryMethods.
Local Open Scope Z_scope.

Section Service.
Context {R E : Type} `{IRoutineRepository R} `{IRoutineRepositoryRest R}
        `{IExerciseRepository E}.

Definition getAllRoutines (routineRepository : R) : list Routine :=
  routine_getAll routineRepository.

Definition getRoutineById (routineRepository : R) (id : string) : option Routine :=
  routine_getById routineRepository id.

Definition getRoutineByType (routineRepository : R) (type : string)
    : option Routine :=
  routine_getByType routineRepository type.

(** The routine object after [routine.exerciseIds = exerciseIds]. *)
Definition withExerciseIds (routine : Routine) (exerciseIds : list string)
    : Routine :=
  {| r_id := r_id routine;
     r_name := r_name routine;
     r_type := r_type routine;
     r_exerciseIds := exerciseIds;
     r_estimatedDuration := r_estimatedDuration routine |}.

(** [updateRoutineExercises(routineId, exerciseIds)] *)
Definition updateRoutineExercises (routineRepository : R)
    (exerciseRepository : E) (routineId : string) (exerciseIds : list string)
    : R * result unit :=
  match routine_getById routineRepository routineId with
  | None => (routineRepository, Err "Routine not found")
  | Some routine =>
      match RoutineService.firstUnknownId exerciseRepository exerciseIds with
      | Some id =>
          (routineRepository,
           Err ("Exercise with ID " ++ id ++ " not found")%string)
      | None =>
          (routine_update routineRepository (withExerciseIds routine exerciseIds),
           Ok tt)
      end
  end.

(** [getRoutineExerciseCount(routineId)] *)
Definition getRoutineExerciseCount (routineRepository : R) (routineId : string)
    : Z :=
  match routine_getById routineRepository routineId with
  | Some routine => Z.of_nat (length (r_exerciseIds routine))
  | None => 0
  end.

End Service.

End RoutineServiceRest.

Module ExerciseServiceRest.
Import Models Js IRepositories.

Section Service.
Context {E : Type} `{IExerciseRepository E}.

(** [getExerciseById(id)] *)
Definition getExerciseById (repository : E) (id : string)
    : result (option Exercise) :=
  if is_empty id || is_empty (trim id) then Err "Invalid exercise ID"
  else Ok (exercise_getById repository id).

(** [getExercisesForRoutine(exerciseIds)] *)
Fixpoint getExercisesForRoutine (repository : E) (exerciseIds : list string)
    : list Exercise :=
  match exerciseIds with
  | [] => []
  | id :: rest =>
      match exercise_getById repository id with
      | Some exercise => exercise :: getExercisesForRoutine repository rest
      | None => getExercisesForRoutine repository rest
      end
  end.

End Service.

End ExerciseServiceRest.

(* ===================================================================== *)
(** ** presentation/screens: the handlers of the guided workout and the
       duration shown in the history *)
(* ===================================================================== *)

Module SessionScreenHandlers.
Import Models Js IRepositories RepositoryMethods.
Local Open Scope Z_scope.

(** The React state that [handleComplete] and [handleSkip] read and
    write.  [isPaused] and the interval that advances [timer] are left
    out: the two handlers neither read them nor start or stop the
    interval themselves. *)
Record Workout : Type := mkWorkout {
  w_exercises : list Exercise;
  w_currentIndex : nat;
  w_sessionId : option string;
  w_isComplete : bool;
  w_timer : Z;
  w_alert : option (string * string)
}.

(** The state left by a successful [loadSession]. *)
Definition loaded (exercises : list Exercise) (sessionId : string) : Workout :=
  {| w_exercises := exercises; w_currentIndex := 0%nat;
     w_sessionId := Some sessionId; w_isComplete := false;
     w_timer := 0; w_alert := None |}.

(** [setCurrentIndex(prev => prev + 1); setTimer(0)] *)
Definition advance (w : Workout) : Workout :=
  {| w_exercises := w_exercises w;
     w_currentIndex := S (w_currentIndex w);
     w_sessionId := w_sessionId w;
     w_isComplete := w_isComplete w;
     w_timer := 0;
     w_alert := w_alert w |}.

(** [currentIndex < exercises.length - 1] *)
Definition hasNext (w : Workout) : bool :=
  Z.of_nat (w_currentIndex w) <? Z.of_nat (length (w_exercises w)) - 1.

(** [handleSkip()] *)
Definition handleSkip (w : Workout) : Workout :=
  if hasNext w then advance w else w.

(** The [catch] block of [handleComplete]. *)
Definition failedToSave (w : Workout) : Workout :=
  {| w_exercises := w_exercises w;
     w_currentIndex := w_currentIndex w;
     w_sessionId := w_sessionId w;
     w_isComplete := w_isComplete w;
     w_timer := w_timer w;
     w_alert := Some ("Error", "Failed to save progress")%string |}.

(** [setIsComplete(true)] *)
Definition completeWorkout (w : Workout) : Workout :=
  {| w_exercises := w_exercises w;
     w_currentIndex := w_currentIndex w;
     w_sessionId := w_sessionId w;
     w_isComplete := true;
     w_timer := w_timer w;
     w_alert := w_alert w |}.

(** The record that [handleComplete] writes for an exercise: completed,
    without actual repetitions or duration. *)
Definition completionOf (exercise : Exercise) : ExerciseCompletion :=
  {| c_exerciseId := ex_id exercise; c_completed := true;
     c_reps := None; c_duration := None |}.

Section Handlers.
Context {SR : Type} `{ISessionRepository SR} `{ISessionRepositoryRest SR}.

(** [handleComplete()]; [now] is the time of the [finishSession] call. *)
Definition handleComplete (sessionRepository : SR) (now : Z) (w : Workout)
    : SR * Workout :=
  if negb (truthy_str (w_sessionId w)) then (sessionRepository, w)
  else
    match w_exercises w !! w_currentIndex w with
    | None => (sessionRepository, w)
    | Some currentExercise =>
        match SessionService.markExerciseComplete sessionRepository
                (default EmptyString (w_sessionId w))
                (ex_id currentExercise) None None with
        | (repository1, Err _) => (repository1, failedToSave w)
        | (repository1, Ok _) =>
            if hasNext w then (repository1, advance w)
            else
              match SessionServiceRest.finishSession repository1 now
                      (default EmptyString (w_sessionId w)) with
              | (repository2, Err _) => (repository2, failedToSave w)
              | (repository2, Ok _) => (repository2, completeWorkout w)
              end
        end
    end.

(** [handleComplete] pressed [n] times, at the instants [now], [now + 1], ... *)
Fixpoint completeTimes (n : nat) (sessionRepository : SR) (now : Z) (w : Workout)
    : SR * Workout :=
  match n with
  | O => (sessionRepository, w)
  | S n' =>
      let '(repository1, w1) := handleComplete sessionRepository now w in
      completeTimes n' repository1 (now + 1) w1
  end.

End Handlers.

End SessionScreenHandlers.

Module HistoryScreen.
Import Models Js.
Local Open Scope Z_scope.

(** [formatDuration(startTime, endTime?)]:
    [Math.floor((end - start) / 1000 / 60)] minutes. *)
Definition floor_minutes (durationMs : Z) : Z := durationMs / 60000.

Definition formatDuration (startTime : Z) (endTime : option Z) : string :=
  match endTime with
  | None => "In progress"
  | Some endMs => (pretty (floor_minutes (endMs - startTime)) ++ " min")%string
  end.

End HistoryScreen.

Module MoreCases.
Import Models Js IRepositories RepositoryMethods SessionRepository.
Import SessionScreenHandlers.
Local Open Scope Z_scope.

(** Two unfinished sessions and nothing else. *)
Definition unfinished : list DbSessionLog :=
  [ Cases.row 1 19990 0; Cases.row 2 19991 0 ].

(** The completed days of [Cases.history] in another order, each day
    once, with two unfinished sessions more. *)
Definition shuffledHistory : list DbSessionLog :=
  [ Cases.row 11 19996 1; Cases.row 12 19990 0; Cases.row 13 20000 1;
    Cases.row 14 19998 1; Cases.row 15 19999 1; Cases.row 16 20000 0;
    Cases.row 17 19998 1 ].

(** A loaded workout whose session id was lost. *)
Definition withoutSession (exercises : list Exercise) : Workout :=
  {| w_exercises := exercises; w_currentIndex := 0%nat;
     w_sessionId := None; w_isComplete := false;
     w_timer := 0; w_alert := None |}.

(** The session of [Cases.sessions2], as read from the repository. *)
Definition session2 : SessionLog :=
  {| s_id := "1"; s_routineId := "1"; s_startTime := Cases.now;
     s_endTime := None;
     s_exercises := [mkCompletion "1" true (Some 10) None];
     s_completed := false |}.

(** The session of [Cases.sessions1]: just created. *)
Definition session1 : SessionLog :=
  {| s_id := "1"; s_routineId := "1"; s_startTime := Cases.now;
     s_endTime := None; s_exercises := []; s_completed := false |}.

(** A session that took 5 minutes and 40 seconds. *)
Definition timedSession : SessionLog :=
  {| s_id := "1"; s_routineId := "1"; s_startTime := Cases.now;
     s_endTime := Some (Cases.now + 340000);
     s_exercises := []; s_completed := true |}.

(** The morning routine of the seeded repository. *)
Definition morningRoutine : Routine :=
  {| r_id := "1"; r_name := "Morning Routine"; r_type := morning;
     r_exerciseIds := ["1"; "3"; "4"]%string; r_estimatedDuration := 15 |}.

End MoreCases.

(* ===================================================================== *)
(** * Properties *)
(* ===================================================================== *)

(** ** Statistics: the distinct completed dates *)

Section UniqueDates.
Import Models Js SessionRepository.
Local Open Scope Z_scope.

Lemma Set_add_elem_of acc x y :
  y ∈ Set_add acc x ↔ y ∈ acc ∨ y = x.
Proof.
  unfold Set_add. case_bool_decide as Hx.
  - split; [auto | intros [?| ->]; done].
  - rewrite elem_of_app, list_elem_of_singleton. done.
Qed.

Lemma Set_add_NoDup acc x : NoDup acc → NoDup (Set_add acc x).
Proof.
  intros Hnd. unfold Set_add. case_bool_decide as Hx; [done|].
  apply NoDup_app. split_and!; [done | | apply NoDup_singleton].
  intros y Hy ->%list_elem_of_singleton. done.
Qed.

Lemma fold_Set_add_elem_of xs acc y :
  y ∈ fold_left Set_add xs acc ↔ y ∈ acc ∨ y ∈ xs.
Proof.
  revert acc. induction xs as [|x xs IH]; intros acc; simpl.
  - rewrite elem_of_nil. tauto.
  - rewrite IH, Set_add_elem_of, elem_of_cons. tauto.
Qed.

Lemma fold_Set_add_NoDup xs acc :
  NoDup acc → NoDup (fold_left Set_add xs acc).
Proof.
  revert acc. induction xs as [|x xs IH]; intros acc Hnd; simpl; [done|].
  apply IH, Set_add_NoDup, Hnd.
Qed.

Lemma new_Set_elem_of xs y : y ∈ new_Set xs ↔ y ∈ xs.
Proof.
  unfold new_Set. rewrite fold_Set_add_elem_of, elem_of_nil. tauto.
Qed.

Lemma new_Set_NoDup xs : NoDup (new_Set xs).
Proof. apply fold_Set_add_NoDup, NoDup_nil_2. Qed.

Lemma completedSessions_elem_of session_logs d :
  d ∈ completedSessions session_logs ↔ completedOn session_logs d.
Proof.
  unfold completedSessions, completedOn.
  rewrite merge_sort_Permutation, list_elem_of_In, in_map_iff.
  split.
  - intros (r & Hd & [Hr Hc]%filter_In).
    exists r. rewrite list_elem_of_In. split_and!; [done | lia | done].
  - intros (r & Hr & Hc & Hd). exists r. split; [done|].
    apply filter_In. rewrite <- list_elem_of_In. split; [done | lia].
Qed.

Lemma sortedDates_elem_of session_logs d :
  d ∈ sortedDates session_logs ↔ completedOn session_logs d.
Proof.
  unfold sortedDates.
  rewrite merge_sort_Permutation, new_Set_elem_of.
  apply completedSessions_elem_of.
Qed.

Lemma sortedDates_NoDup session_logs : NoDup (sortedDates session_logs).
Proof.
  unfold sortedDates. rewrite merge_sort_Permutation. apply new_Set_NoDup.
Qed.

Lemma sortedDates_Sorted session_logs : Sorted Z.le (sortedDates session_logs).
Proof. apply Sorted_merge_sort, _. Qed.

Lemma uniqueDates_elem_of session_logs d :
  d ∈ uniqueDates session_logs ↔ completedOn session_logs d.
Proof.
  unfold uniqueDates. rewrite elem_of_reverse. apply sortedDates_elem_of.
Qed.

(** The distinct completed dates are determined by the set of days
    with a completed session: whenever that set is the set of elements
    of an ascending duplicate-free list [ds], [uniqueDates] is [ds]
    backwards. *)
Lemma uniqueDates_characterised session_logs ds :
  Sorted Z.le ds → NoDup ds →
  (∀ d, completedOn session_logs d ↔ d ∈ ds) →
  uniqueDates session_logs = reverse ds.
Proof.
  intros Hsorted Hnd Hset. unfold uniqueDates. f_equal.
  apply (Sorted_unique Z.le).
  - apply sortedDates_Sorted.
  - done.
  - apply NoDup_Permutation; [apply sortedDates_NoDup | done |].
    intros d. rewrite sortedDates_elem_of. apply Hset.
Qed.

End UniqueDates.

(** ** Statistics: the two streak loops *)

Section Streaks.
Import Models Js SessionRepository.
Local Open Scope Z_scope.

(** Decide every integer comparison that the loops make on symbolic
    day numbers. *)
Ltac decide_tests :=
  repeat match goal with
    | |- context [?a =? ?b] => destruct (Z.eqb_spec a b); try lia
    end.

Lemma currentLoop_le today dates :
  ∀ prev st, currentLoop_inv prev st →
    cur (currentLoop today prev dates st)
      ≤ longest (currentLoop today prev dates st).
Proof.
  induction dates as [|d rest IH]; intros prev st Hinv; simpl.
  - destruct prev; simpl in Hinv; lia.
  - destruct prev as [p|]; simpl in Hinv.
    + destruct (p - d =? 1); [|lia].
      apply IH. simpl. lia.
    + destruct ((today - d =? 0) || (today - d =? 1)); [|lia].
      apply IH. simpl. lia.
Qed.

Lemma longestLoop_cur prev dates :
  ∀ st, cur (longestLoop prev dates st) = cur st.
Proof.
  revert prev. induction dates as [|d rest IH]; intros prev st; simpl; [done|].
  destruct (prev - d =? 1); rewrite IH; done.
Qed.

Lemma longestLoop_mono prev dates :
  ∀ st, longest st ≤ longest (longestLoop prev dates st).
Proof.
  revert prev. induction dates as [|d rest IH]; intros prev st; simpl; [lia|].
  destruct (prev - d =? 1).
  - etransitivity; [|apply IH]. simpl. lia.
  - etransitivity; [|apply IH]. simpl. lia.
Qed.

(** [getStatistics] on a given list of distinct dates. *)
Lemma getStatistics_unfold today session_logs :
  getStatistics today session_logs =
    let dates := uniqueDates session_logs in
    let st1 := currentLoop today None dates (mkCounters 0 0 0) in
    let st2 :=
      match dates with
      | [] => mkCounters (cur st1) (longest st1) 1
      | d0 :: rest => longestLoop d0 rest (mkCounters (cur st1) (longest st1) 1)
      end in
    {| totalSessions := Z.of_nat (length session_logs);
       currentStreak := cur st2;
       longestStreak := longest st2;
       lastSessionDate := head dates |}.
Proof. reflexivity. Qed.

(** C1.  When the days with a completed session are exactly today,
    yesterday, the day before and the day four days ago (any number of
    sessions on each of them, any number of unfinished sessions
    anywhere), the statistics report a current streak of 3, a longest
    streak of 3 and today as the last session date. *)
Theorem streak_across_one_gap_day (today : Z) (session_logs : list DbSessionLog) :
  (∀ d, completedOn session_logs d
        ↔ d ∈ [today; today - 1; today - 2; today - 4]) →
  currentStreak (getStatistics today session_logs) = 3
  ∧ longestStreak (getStatistics today session_logs) = 3
  ∧ lastSessionDate (getStatistics today session_logs) = Some today.
Proof.
  intros Hdays.
  assert (Hdates : uniqueDates session_logs
                   = [today; today - 1; today - 2; today - 4]).
  { rewrite (uniqueDates_characterised session_logs
               [today - 4; today - 2; today - 1; today]); [done| | |].
    - repeat (constructor; try lia).
    - repeat (apply NoDup_cons; split;
              [rewrite ?elem_of_cons, elem_of_nil; lia|]).
      apply NoDup_nil_2.
    - intros d. rewrite Hdays, !elem_of_cons, !elem_of_nil. tauto. }
  rewrite getStatistics_unfold, Hdates. simpl.
  decide_tests. simpl. decide_tests. simpl.
  split_and!; (lia || done).
Qed.

(** C3.  For every table of sessions and every current day, the
    longest streak returned is at least the current streak returned. *)
Theorem longest_streak_ge_current_streak (today : Z)
    (session_logs : list DbSessionLog) :
  currentStreak (getStatistics today session_logs)
    ≤ longestStreak (getStatistics today session_logs).
Proof.
  rewrite getStatistics_unfold. simpl.
  pose proof (currentLoop_le today (uniqueDates session_logs) None
                (mkCounters 0 0 0)) as Hle.
  simpl in Hle. specialize (Hle (conj eq_refl (Z.le_refl 0))).
  destruct (uniqueDates session_logs) as [|d0 rest].
  - simpl in *. lia.
  - rewrite longestLoop_cur. simpl cur.
    etransitivity; [apply Hle|].
    etransitivity; [|apply longestLoop_mono]. simpl. lia.
Qed.

End Streaks.

(** ** Statistics: the longest streak against its specification *)

Section LongestStreak.
Import Models Js SessionRepository.
Local Open Scope Z_scope.

Lemma longestRun_from_ge_best prev dates :
  ∀ run best, best ≤ longestRun_from prev dates run best.
Proof.
  revert prev. induction dates as [|d rest IH]; intros prev run best; simpl; [lia|].
  etransitivity; [|apply IH]. lia.
Qed.

(** The second loop started on an earlier maximum [ls] returns the
    larger of [ls] and what it returns when started on 0. *)
Lemma longestLoop_start prev dates :
  ∀ c ls run, 0 ≤ ls →
    longest (longestLoop prev dates (mkCounters c ls run))
    = Z.max ls (longest (longestLoop prev dates (mkCounters c 0 run))).
Proof.
  revert prev. induction dates as [|d rest IH]; intros prev c ls run Hls; simpl.
  - lia.
  - destruct (prev - d =? 1).
    + rewrite (IH d c (Z.max ls (run + 1))) by lia.
      rewrite (IH d c (Z.max 0 (run + 1))) by lia. lia.
    + apply IH. done.
Qed.

(** The second loop records a run only when it grows: its maximum and
    the maximum of the specification agree from 2 on. *)
Lemma longestLoop_vs_spec prev dates :
  ∀ c ls run best, 1 ≤ run → Z.max ls 1 = best →
    Z.max (longest (longestLoop prev dates (mkCounters c ls run))) 1
    = longestRun_from prev dates run best.
Proof.
  revert prev. induction dates as [|d rest IH]; intros prev c ls run best Hrun Hbest;
    simpl.
  - done.
  - destruct (prev - d =? 1).
    + apply IH; lia.
    + apply IH; lia.
Qed.

(** The current streak is the length of a run, hence at most the
    longest run of the specification. *)
Lemma currentLoop_le_spec today dates :
  ∀ p st best, cur st = temp st → temp st ≤ best →
    cur (currentLoop today (Some p) dates st)
      ≤ longestRun_from p dates (temp st) best.
Proof.
  induction dates as [|d rest IH]; intros p st best Hcur Hbest; simpl.
  - lia.
  - destruct (p - d =? 1).
    + etransitivity; [apply (IH d _ (Z.max best (temp st + 1))); simpl; lia|].
      simpl. done.
    + etransitivity; [|apply longestRun_from_ge_best]. lia.
Qed.

Lemma currentStreak_le_spec today dates :
  cur (currentLoop today None dates (mkCounters 0 0 0)) ≤ longestRun_spec dates.
Proof.
  destruct dates as [|d0 rest]; simpl; [lia|].
  destruct ((today - d0 =? 0) || (today - d0 =? 1)).
  - apply (currentLoop_le_spec today rest d0 (mkCounters 1 (Z.max 0 1) 1) 1);
      simpl; lia.
  - simpl. etransitivity; [|apply longestRun_from_ge_best]. lia.
Qed.

Lemma currentLoop_longest today dates :
  ∀ prev st, currentLoop_inv prev st →
    longest st ≤ longest (currentLoop today prev dates st).
Proof.
  induction dates as [|d rest IH]; intros prev st Hinv; simpl; [lia|].
  destruct prev as [p|]; simpl in Hinv.
  - destruct (p - d =? 1); [|lia].
    etransitivity; [|apply IH; simpl; lia]. simpl. lia.
  - destruct ((today - d =? 0) || (today - d =? 1)); [|lia].
    etransitivity; [|apply IH; simpl; lia]. simpl. lia.
Qed.

Lemma currentLoop_longest_eq today dates :
  ∀ prev st, currentLoop_inv prev st → longest st = cur st →
    longest (currentLoop today prev dates st)
    = cur (currentLoop today prev dates st).
Proof.
  induction dates as [|d rest IH]; intros prev st Hinv Heq; simpl; [done|].
  destruct prev as [p|]; simpl in Hinv.
  - destruct (p - d =? 1); [|done]. apply IH; simpl; lia.
  - destruct ((today - d =? 0) || (today - d =? 1)); [|done].
    apply IH; simpl; lia.
Qed.

(** What [getStatistics] returns as the longest streak, against the
    longest run of the specification: they agree whenever the returned
    value is at least 1, and the returned value is never larger. *)
Lemma longestStreak_vs_spec today session_logs :
  uniqueDates session_logs ≠ [] →
  longestRun_spec (uniqueDates session_logs)
  = Z.max 1 (longestStreak (getStatistics today session_logs)).
Proof.
  intros Hne. rewrite getStatistics_unfold. simpl.
  pose proof (currentStreak_le_spec today (uniqueDates session_logs)) as Hcur.
  pose proof (currentLoop_longest_eq today (uniqueDates session_logs) None
                (mkCounters 0 0 0) (conj eq_refl (Z.le_refl 0)) eq_refl) as Heq.
  pose proof (currentLoop_longest today (uniqueDates session_logs) None
                (mkCounters 0 0 0) (conj eq_refl (Z.le_refl 0))) as Hpos.
  simpl in Hpos.
  destruct (uniqueDates session_logs) as [|d0 rest]; [done|].
  set (st1 := currentLoop today None (d0 :: rest) (mkCounters 0 0 0)) in *.
  rewrite longestLoop_start by done.
  pose proof (longestLoop_vs_spec d0 rest (cur st1) 0 1 1 (Z.le_refl 1) eq_refl)
    as Hspec.
  unfold longestRun_spec in *. lia.
Qed.

Lemma no_completed_session_no_streak today session_logs :
  uniqueDates session_logs = [] →
  longestStreak (getStatistics today session_logs) = 0.
Proof. intros Hnil. rewrite getStatistics_unfold, Hnil. reflexivity. Qed.

(** C2, evaluated where the program departs from it.  One completed
    session, five days ago, and nothing else: the distinct dates hold
    one day, whose run has length 1, and the program returns 0 as the
    longest streak (and 0 as the current streak). *)
Theorem longest_streak_single_past_day (today : Z) :
  uniqueDates [completedRow (today - 5)] = [today - 5]
  ∧ longestRun_spec (uniqueDates [completedRow (today - 5)]) = 1
  ∧ longestStreak (getStatistics today [completedRow (today - 5)]) = 0
  ∧ currentStreak (getStatistics today [completedRow (today - 5)]) = 0.
Proof.
  assert (Hdates : uniqueDates [completedRow (today - 5)] = [today - 5]).
  { rewrite (uniqueDates_characterised _ [today - 5]); [done| | |].
    - repeat constructor.
    - apply NoDup_singleton.
    - intros d. unfold completedOn. rewrite list_elem_of_singleton. split.
      + intros (r & ->%list_elem_of_singleton & _ & <-). done.
      + intros ->. exists (completedRow (today - 5)).
        rewrite list_elem_of_singleton. done. }
  rewrite getStatistics_unfold, Hdates. simpl.
  destruct (Z.eqb_spec (today - (today - 5)) 0); [lia|].
  destruct (Z.eqb_spec (today - (today - 5)) 1); [lia|].
  done.
Qed.

End LongestStreak.

(** ** Strings: [trim] and blank strings *)

Section Trim.
Import Js.

Lemma trimEnd_empty_iff s : trimEnd s = EmptyString ↔ all_white s = true.
Proof.
  induction s as [|c s IH]; simpl; [done|].
  destruct (trimEnd s) eqn:Hs.
  - destruct (is_white c); simpl.
    + tauto.
    + split; discriminate.
  - split; [discriminate|].
    intros [_ Hw]%andb_true_iff. apply IH in Hw. discriminate.
Qed.

Lemma all_white_trimStart s : all_white (trimStart s) = all_white s.
Proof.
  induction s as [|c s IH]; simpl; [done|].
  destruct (is_white c) eqn:Hc; simpl; [done|].
  rewrite Hc. done.
Qed.

(** [s.trim() === ''] exactly when [s] is empty or white space only. *)
Lemma trim_empty_iff s : is_empty (trim s) = all_white s.
Proof.
  unfold trim. rewrite <- (all_white_trimStart s).
  pose proof (trimEnd_empty_iff (trimStart s)) as Hiff.
  destruct (trimEnd (trimStart s)) eqn:Ht; simpl.
  - symmetry. apply Hiff. done.
  - destruct (all_white (trimStart s)); [|done].
    destruct Hiff as [_ Hiff]. discriminate Hiff. done.
Qed.

(** [!s || s.trim() === ''] *)
Lemma blank_test s : is_empty s || is_empty (trim s) = all_white s.
Proof.
  rewrite trim_empty_iff. destruct s; simpl; [done|]. done.
Qed.

End Trim.

(** ** The duration estimate *)

Section DurationEstimate.
Import Models Js IRepositories ExerciseService.
Local Open Scope Z_scope.

Lemma addExercise_spec acc e :
  mode_wf e → addExercise acc e = acc + contribution_spec e.
Proof.
  unfold mode_wf, addExercise, contribution_spec, truthy_num.
  destruct (ex_type e); intros ->.
  - destruct (ex_reps e) as [n|]; simpl; [|lia].
    destruct (Z.eqb_spec n 0); simpl; lia.
  - destruct (ex_duration e) as [n|]; simpl; [|lia].
    destruct (Z.eqb_spec n 0); simpl; lia.
Qed.

Lemma fold_addExercise_spec exercises :
  Forall mode_wf exercises →
  ∀ acc, fold_left addExercise exercises acc
         = acc + sum_contributions_spec exercises.
Proof.
  induction 1 as [|e rest He _ IH]; intros acc; simpl; [lia|].
  rewrite IH, addExercise_spec by done. lia.
Qed.

Lemma ceil_div_60 n : is_ceil_minutes n (ceil_div n 60).
Proof.
  unfold is_ceil_minutes, ceil_div.
  pose proof (Z.div_mod (- n) 60) as Hdm.
  pose proof (Z.mod_pos_bound (- n) 60) as Hbound. lia.
Qed.

Lemma is_ceil_minutes_unique n m1 m2 :
  is_ceil_minutes n m1 → is_ceil_minutes n m2 → m1 = m2.
Proof. unfold is_ceil_minutes. lia. Qed.

Lemma addExercise_by_target acc e :
  addExercise acc e = acc + contribution_by_target e.
Proof.
  unfold addExercise, contribution_by_target, truthy_num.
  destruct (ex_duration e) as [d|]; simpl.
  - destruct (Z.eqb_spec d 0) as [->|Hd]; simpl.
    + destruct (ex_reps e) as [r|]; simpl; [|lia].
      destruct (Z.eqb_spec r 0) as [->|Hr]; simpl; lia.
    + reflexivity.
  - destruct (ex_reps e) as [r|]; simpl; [|lia].
    destruct (Z.eqb_spec r 0) as [->|Hr]; simpl; lia.
Qed.

Lemma fold_addExercise_by_target exercises :
  ∀ acc, fold_left addExercise exercises acc
         = acc + sum_contributions_by_target exercises.
Proof.
  induction exercises as [|e rest IH]; intros acc; simpl; [lia|].
  rewrite IH, addExercise_by_target. lia.
Qed.

Lemma routine_addExercise_eq acc e :
  RoutineService.addExercise acc e = addExercise acc e.
Proof. reflexivity. Qed.

Lemma contribution_by_target_wf e :
  mode_wf e → contribution_by_target e = contribution_spec e.
Proof.
  intros Hwf. rewrite <- (Z.add_0_l (contribution_by_target e)).
  rewrite <- addExercise_by_target, addExercise_spec by done. lia.
Qed.

Lemma sum_contributions_by_target_wf exercises :
  Forall mode_wf exercises →
  sum_contributions_by_target exercises = sum_contributions_spec exercises.
Proof.
  induction 1 as [|e rest He _ IH]; simpl; [done|].
  by rewrite IH, contribution_by_target_wf.
Qed.

(** C4, as stated, fails.  One rep-based exercise of 100 repetitions
    that also carries a duration of 20 s: by the measurement mode
    [T = 300] and the estimate would be 5 minutes, but
    [ExerciseService.calculateTotalDuration] tests [exercise.duration]
    first, counts 20 s and returns 1, and so does
    [RoutineService.calculateRoutineDuration] on a routine made of this
    exercise.  The other way round, a duration-based exercise with a
    duration of 0 and 100 repetitions counts for 300 s, not for 0. *)
Lemma duration_estimate_ignores_the_mode :
  ex_type hundredRepsWithDuration = reps_type
  ∧ totalSeconds_spec [hundredRepsWithDuration] = 300
  ∧ calculateTotalDuration [hundredRepsWithDuration] = 1
  ∧ RoutineService.calculateRoutineDuration
      Cases.squatRoutines Cases.squatCatalog "1" = Ok 1
  ∧ ¬ is_ceil_minutes (totalSeconds_spec [hundredRepsWithDuration])
        (calculateTotalDuration [hundredRepsWithDuration])
  ∧ ex_type zeroDurationWithReps = duration_type
  ∧ totalSeconds_spec [zeroDurationWithReps] = 0
  ∧ calculateTotalDuration [zeroDurationWithReps] = 5.
Proof.
  repeat split; try reflexivity.
  intros [_ Hle]. vm_compute in Hle. by apply Hle.
Qed.

(** C4, amended.  For every list of exercises the estimate of
    [ExerciseService.calculateTotalDuration] is the ceiling of [T / 60],
    where [T] sums, for each exercise, its duration when it has one
    that is not 0 and otherwise three seconds per repetition, whatever
    its measurement mode, plus ten seconds of rest per exercise after
    the first.  On exercises that obey the data model (the target that
    the measurement mode does not name is absent) this [T] is the sum
    by measurement mode: the duration of each duration-based exercise
    and three seconds per repetition of each rep-based one.
    [RoutineService.calculateRoutineDuration] returns the same number
    for a routine that resolves to these exercises. *)
Theorem duration_estimate_is_ceiling {R E : Type}
    `{IRoutineRepository R} `{IExerciseRepository E}
    (routineRepository : R) (exerciseRepository : E) (routineId : string)
    (exercises : list Exercise) :
  is_ceil_minutes (totalSeconds_by_target exercises)
    (calculateTotalDuration exercises)
  ∧ (Forall mode_wf exercises →
     totalSeconds_by_target exercises = totalSeconds_spec exercises)
  ∧ (RoutineService.getRoutineExercises
       routineRepository exerciseRepository routineId = Ok exercises →
     RoutineService.calculateRoutineDuration
       routineRepository exerciseRepository routineId
     = Ok (calculateTotalDuration exercises)).
Proof.
  split; [|split].
  - unfold calculateTotalDuration, totalSeconds_by_target, rest_spec.
    rewrite fold_addExercise_by_target.
    destruct exercises as [|e rest].
    + simpl. unfold is_ceil_minutes. vm_compute. split; [done|discriminate].
    + destruct (Z.leb_spec 2 (Z.of_nat (length (e :: rest)))) as [Hlen|Hlen].
      * replace (0 + sum_contributions_by_target (e :: rest)
                 + (Z.of_nat (length (e :: rest)) - 1) * 10)
          with (sum_contributions_by_target (e :: rest)
                + 10 * (Z.of_nat (length (e :: rest)) - 1)) by lia.
        apply ceil_div_60.
      * simpl length in *.
        replace (0 + sum_contributions_by_target (e :: rest)
                 + (Z.of_nat (S (length rest)) - 1) * 10)
          with (sum_contributions_by_target (e :: rest) + 0) by lia.
        apply ceil_div_60.
  - intros Hwf. unfold totalSeconds_by_target, totalSeconds_spec.
    by rewrite sum_contributions_by_target_wf.
  - intros Hres. unfold RoutineService.calculateRoutineDuration.
    rewrite Hres. reflexivity.
Qed.

(** Outside the data model the two estimates follow the targets, not
    the measurement mode: a rep-based exercise of 10 repetitions that
    also carries a duration of 20 s counts for 20 s, not for 30 s. *)
Lemma duration_is_tested_before_mode :
  ex_type repsWithDuration = reps_type
  ∧ contribution_spec repsWithDuration = 30
  ∧ addExercise 0 repsWithDuration = 20
  ∧ RoutineService.addExercise 0 repsWithDuration = 20.
Proof. repeat split. Qed.

Lemma plankAndHold_wf : Forall mode_wf plankAndHold.
Proof. repeat constructor. Qed.

(** The two timed exercises of 30 s and 60 s: 100 s, 2 minutes. *)
Lemma duration_estimate_plank_and_hold :
  Forall mode_wf plankAndHold
  ∧ totalSeconds_by_target plankAndHold = 100
  ∧ totalSeconds_spec plankAndHold = 100
  ∧ calculateTotalDuration plankAndHold = 2.
Proof.
  destruct (duration_estimate_is_ceiling
              (MockRoutineRepository.mk [] 1) ([] : MockExerciseRepository.t)
              "1" plankAndHold) as (Hceil & Hspec & _).
  split; [exact plankAndHold_wf|]. split; [reflexivity|].
  split; [rewrite <- (Hspec plankAndHold_wf); reflexivity|].
  apply (is_ceil_minutes_unique (totalSeconds_by_target plankAndHold));
    [exact Hceil|].
  unfold is_ceil_minutes. split; vm_compute; [reflexivity|discriminate].
Defined.

End DurationEstimate.

(** ** Validation of an exercise definition *)

Section Validation.
Import Models Js ExerciseService.
Local Open Scope Z_scope.

Lemma string_check_spec (o : option string) :
  negb (truthy_str o) || is_empty (trim (default EmptyString o)) = false
  ↔ ∃ s, o = Some s ∧ all_white s = false.
Proof.
  destruct o as [s|]; simpl.
  - rewrite trim_empty_iff. split.
    + intros [_ Hw]%orb_false_iff. eauto.
    + intros (s' & [= <-] & Hw). rewrite Hw.
      destruct s; [discriminate Hw | done].
  - split; [discriminate | intros (s & [=] & _)].
Qed.

Lemma truthy_num_spec (o : option Z) :
  truthy_num o = true ↔ ∃ n, o = Some n ∧ n ≠ 0.
Proof.
  destruct o as [n|]; simpl.
  - destruct (Z.eqb_spec n 0); simpl; split.
    + discriminate.
    + intros (m & [= <-] & Hm). done.
    + eauto.
    + done.
  - split; [discriminate | intros (n & [=] & _)].
Qed.

(** The statement of C8 fails on the program: a definition that
    carries both a repetition count and a duration passes the
    validation. *)
Lemma both_targets_validate :
  validateExercise bothTargets = None
  ∧ ¬ exactly_one_target bothTargets.
Proof.
  split; [reflexivity|].
  assert (Hr : reps_present bothTargets) by (exists 10; split; [done | lia]).
  assert (Hd : duration_present bothTargets) by (exists 30; split; [done | lia]).
  unfold exactly_one_target. tauto.
Qed.

(** C8, amended.  The validation checks, in this order, that the name
    is present and not blank, that the description is present and not
    blank, that the category is present, and that at least one of the
    repetition count and the duration is present and not 0.  It
    returns the message of the first check that fails, and no error
    exactly for the definitions that pass all four; a definition with
    both targets passes the fourth check. *)
Theorem validateExercise_checks_in_order (e : PartialExercise) :
  (¬ name_present e → validateExercise e = Some "Name is required"%string)
  ∧ (name_present e → ¬ description_present e →
     validateExercise e = Some "Description is required"%string)
  ∧ (name_present e → description_present e → ¬ category_present e →
     validateExercise e = Some "Category is required"%string)
  ∧ (name_present e → description_present e → category_present e →
     ¬ (reps_present e ∨ duration_present e) →
     validateExercise e
     = Some "Either reps or duration must be specified"%string)
  ∧ (validateExercise e = None
     ↔ name_present e ∧ description_present e ∧ category_present e
       ∧ (reps_present e ∨ duration_present e)).
Proof.
  unfold name_present, description_present, category_present,
    reps_present, duration_present, validateExercise.
  rewrite <- !string_check_spec, <- !truthy_num_spec.
  assert (Hcat : (∃ c, p_category e = Some c)
                 ↔ truthy_enum (p_category e) = true).
  { destruct (p_category e) as [c|]; simpl; split; eauto; try discriminate.
    intros [c Hc]. discriminate Hc. }
  rewrite Hcat. clear Hcat.
  destruct (negb (truthy_str (p_name e))
            || is_empty (trim (default EmptyString (p_name e))));
    [intuition congruence|].
  destruct (negb (truthy_str (p_description e))
            || is_empty (trim (default EmptyString (p_description e))));
    [intuition congruence|].
  destruct (truthy_enum (p_category e)); simpl; [|intuition congruence].
  destruct (truthy_num (p_reps e)), (truthy_num (p_duration e)); simpl;
    intuition congruence.
Qed.

(** The amended statement at the definition with both targets. *)
Lemma validateExercise_both_targets_pass :
  (reps_present bothTargets ∧ duration_present bothTargets)
  ∧ validateExercise bothTargets = None.
Proof.
  assert (Hr : reps_present bothTargets) by (exists 10; split; [done | lia]).
  assert (Hd : duration_present bothTargets) by (exists 30; split; [done | lia]).
  split; [done|].
  destruct (validateExercise_checks_in_order bothTargets)
    as (_ & _ & _ & _ & Hvalid).
  apply Hvalid. split_and!.
  - exists "Test"%string. done.
  - exists "Test description"%string. done.
  - exists strengthening. done.
  - left. exact Hr.
Defined.

End Validation.

(** ** Routines: creation and deletion *)

Section Routines.
Import Models Js IRepositories RoutineService.
Local Open Scope Z_scope.

Context {R E : Type} `{IRoutineRepository R} `{IExerciseRepository E}.

Lemma firstUnknownId_found (exerciseRepository : E) known id rest :
  all_known exerciseRepository known →
  exercise_getById exerciseRepository id = None →
  firstUnknownId exerciseRepository (known ++ id :: rest) = Some id.
Proof.
  intros Hknown Hid. induction Hknown as [|k known [e Hk] _ IH]; simpl.
  - rewrite Hid. done.
  - rewrite Hk. done.
Qed.

Lemma firstUnknownId_none (exerciseRepository : E) ids :
  all_known exerciseRepository ids →
  firstUnknownId exerciseRepository ids = None.
Proof.
  intros Hknown. induction Hknown as [|k known [e Hk] _ IH]; simpl; [done|].
  rewrite Hk. done.
Qed.

(** C6.  [createRoutine] checks the title first, then the list, then
    the ids from left to right, and stops at the first failure:
    - a title that is empty or white space only gives the error about
      the title, whatever the list is;
    - otherwise an empty list gives the error about the list;
    - otherwise the first id that does not resolve in the catalog gives
      the error that names this id;
    - otherwise the routine handed to the repository has the given
      title and ids and the kind [custom].
    In the three failing cases the routine repository is left as it
    was. *)
Theorem createRoutine_validation_order
    (routineRepository : R) (exerciseRepository : E)
    (title : string) (exerciseIds : list string) :
  (all_white title = true →
   createRoutine routineRepository exerciseRepository title exerciseIds
   = (routineRepository, Err "Routine title is required"))
  ∧ (all_white title = false → exerciseIds = [] →
     createRoutine routineRepository exerciseRepository title exerciseIds
     = (routineRepository, Err "Routine must contain at least one exercise"))
  ∧ (all_white title = false →
     ∀ known id rest,
       exerciseIds = known ++ id :: rest →
       all_known exerciseRepository known →
       exercise_getById exerciseRepository id = None →
       createRoutine routineRepository exerciseRepository title exerciseIds
       = (routineRepository,
          Err ("Exercise with ID " ++ id ++ " not found")%string))
  ∧ (all_white title = false → exerciseIds ≠ [] →
     all_known exerciseRepository exerciseIds →
     ∃ routine,
       createRoutine routineRepository exerciseRepository title exerciseIds
       = (routine_save routineRepository routine, Ok tt)
       ∧ r_type routine = custom
       ∧ r_name routine = title
       ∧ r_exerciseIds routine = exerciseIds).
Proof.
  unfold createRoutine. rewrite blank_test.
  split_and!.
  - intros ->. done.
  - intros -> ->. done.
  - intros -> known id rest -> Hknown Hid.
    assert (Hlen : (Z.of_nat (length (known ++ id :: rest)) =? 0) = false).
    { apply Z.eqb_neq. rewrite length_app. simpl. lia. }
    rewrite Hlen, firstUnknownId_found by done. done.
  - intros -> Hne Hknown.
    destruct exerciseIds as [|id0 ids]; [done|]. simpl length.
    destruct (Z.eqb_spec (Z.of_nat (S (length ids))) 0) as [Hlen|_]; [lia|].
    rewrite firstUnknownId_none by done.
    exists (newRoutine title (id0 :: ids)). done.
Qed.

Lemma deleteRoutine_not_found (routineRepository : R) routineId :
  routine_getById routineRepository routineId = None →
  deleteRoutine routineRepository routineId
  = (routineRepository, Err "Routine not found").
Proof. unfold deleteRoutine. intros ->. done. Qed.

Lemma deleteRoutine_default (routineRepository : R) routineId routine :
  routine_getById routineRepository routineId = Some routine →
  r_type routine = morning ∨ r_type routine = evening →
  deleteRoutine routineRepository routineId
  = (routineRepository, Err "Cannot delete default routines").
Proof. unfold deleteRoutine. intros -> [-> | ->]; done. Qed.

Lemma deleteRoutine_custom (routineRepository : R) routineId routine :
  routine_getById routineRepository routineId = Some routine →
  r_type routine = custom →
  deleteRoutine routineRepository routineId
  = (routine_delete routineRepository routineId, Ok tt).
Proof. unfold deleteRoutine. intros -> ->. done. Qed.

End Routines.

(** ** Routines in the in-memory repository *)

Section MockRoutines.
Import Models Js IRepositories RoutineService.
Local Open Scope Z_scope.

Lemma find_filter_same {A} (key : A → string) (l : list A) id :
  find (λ x, String.eqb (key x) id)
    (List.filter (λ x, negb (String.eqb (key x) id)) l) = None.
Proof.
  induction l as [|x l IH]; simpl; [done|].
  destruct (String.eqb (key x) id) eqn:Hx; simpl; [done|].
  rewrite Hx. done.
Qed.

Lemma find_filter_other {A} (key : A → string) (l : list A) id other :
  other ≠ id →
  find (λ x, String.eqb (key x) other)
    (List.filter (λ x, negb (String.eqb (key x) id)) l)
  = find (λ x, String.eqb (key x) other) l.
Proof.
  intros Hne. induction l as [|x l IH]; simpl; [done|].
  destruct (String.eqb_spec (key x) id) as [Hx|Hx]; simpl.
  - destruct (String.eqb_spec (key x) other) as [Hx'|_]; [congruence|done].
  - destruct (String.eqb (key x) other); done.
Qed.

(** After a successful [createRoutine] the in-memory repository holds
    one more routine, the last one, of kind [custom], with the title
    and the ids that were given. *)
Lemma createRoutine_stored {E} `{IExerciseRepository E}
    (mock : MockRoutineRepository.t) (exerciseRepository : E) title exerciseIds :
  (createRoutine mock exerciseRepository title exerciseIds).2 = Ok tt →
  ∃ stored,
    MockRoutineRepository.routines
      (createRoutine mock exerciseRepository title exerciseIds).1
    = MockRoutineRepository.routines mock ++ [stored]
    ∧ r_type stored = custom
    ∧ r_name stored = title
    ∧ r_exerciseIds stored = exerciseIds.
Proof.
  unfold createRoutine.
  destruct (is_empty title || is_empty (trim title)); [discriminate|].
  destruct (Z.of_nat (length exerciseIds) =? 0); [discriminate|].
  destruct (firstUnknownId exerciseRepository exerciseIds); [discriminate|].
  intros _. simpl. eexists. split_and!; reflexivity.
Qed.

(** C7.  [deleteRoutine] fails with "Routine not found" for an id that
    is not in the store; for a stored routine of kind [morning] or
    [evening] it fails with "Cannot delete default routines" and the
    routine is still in the store; for a stored routine of kind
    [custom] it succeeds, the id no longer resolves afterwards and
    every other id resolves as before. *)
Theorem deleteRoutine_outcomes (mock : MockRoutineRepository.t)
    (routineId : string) :
  (routine_getById mock routineId = None →
   deleteRoutine mock routineId = (mock, Err "Routine not found"))
  ∧ (∀ routine,
       routine_getById mock routineId = Some routine →
       r_type routine = morning ∨ r_type routine = evening →
       (deleteRoutine mock routineId).2 = Err "Cannot delete default routines"
       ∧ routine_getById (deleteRoutine mock routineId).1 routineId
         = Some routine)
  ∧ (∀ routine,
       routine_getById mock routineId = Some routine →
       r_type routine = custom →
       (deleteRoutine mock routineId).2 = Ok tt
       ∧ routine_getById (deleteRoutine mock routineId).1 routineId = None
       ∧ ∀ other, other ≠ routineId →
           routine_getById (deleteRoutine mock routineId).1 other
           = routine_getById mock other).
Proof.
  split_and!.
  - apply deleteRoutine_not_found.
  - intros routine Hget Hkind.
    rewrite (deleteRoutine_default mock routineId routine) by done. done.
  - intros routine Hget Hkind.
    rewrite (deleteRoutine_custom mock routineId routine) by done.
    simpl. split_and!; [done | apply find_filter_same |].
    intros other Hne. apply find_filter_other. done.
Qed.

End MockRoutines.

(** ** Routines: the cases of the tests, on the seeded repositories *)

Section RoutineCases.
Import Models Js IRepositories RoutineService.
Local Open Scope Z_scope.

Import Cases.

Lemma createRoutine_cases :
  createRoutine routines0 catalog0 "" [] 
  = (routines0, Err "Routine title is required")
  ∧ createRoutine routines0 catalog0 "   " ["1"; "2"]%string
    = (routines0, Err "Routine title is required")
  ∧ createRoutine routines0 catalog0 "Name" []
    = (routines0, Err "Routine must contain at least one exercise")
  ∧ createRoutine routines0 catalog0 "Name" ["1"; "unknown-id"; "999"]%string
    = (routines0, Err "Exercise with ID unknown-id not found")
  ∧ ∃ routine,
      createRoutine routines0 catalog0 "My Routine" ["1"; "2"]%string
      = (routine_save routines0 routine, Ok tt)
      ∧ r_type routine = custom.
Proof.
  split; [|split; [|split; [|split]]].
  - apply (createRoutine_validation_order routines0 catalog0 "" []).
    reflexivity.
  - apply (createRoutine_validation_order routines0 catalog0 "   "
              ["1"; "2"]%string).
    reflexivity.
  - apply (createRoutine_validation_order routines0 catalog0 "Name" []);
      reflexivity.
  - destruct (createRoutine_validation_order routines0 catalog0 "Name"
                ["1"; "unknown-id"; "999"]%string) as (_ & _ & Hunknown & _).
    apply (Hunknown eq_refl ["1"%string] "unknown-id"%string ["999"%string]).
    + reflexivity.
    + constructor; [eexists; reflexivity | constructor].
    + reflexivity.
  - destruct (createRoutine_validation_order routines0 catalog0 "My Routine"
                ["1"; "2"]%string) as (_ & _ & _ & Hok).
    destruct Hok as (routine & Hcreate & Hkind & _).
    + reflexivity.
    + discriminate.
    + constructor; [eexists; reflexivity|].
      constructor; [eexists; reflexivity | constructor].
    + exists routine. split; [exact Hcreate | exact Hkind].
Defined.

Lemma deleteRoutine_cases :
  deleteRoutine routines1 "999" = (routines1, Err "Routine not found")
  ∧ (deleteRoutine routines1 "1").2 = Err "Cannot delete default routines"
  ∧ is_Some (routine_getById (deleteRoutine routines1 "1").1 "1")
  ∧ (deleteRoutine routines1 "3").2 = Ok tt
  ∧ routine_getById (deleteRoutine routines1 "3").1 "3" = None.
Proof.
  split; [|split; [|split; [|split]]].
  - apply (deleteRoutine_outcomes routines1 "999"). reflexivity.
  - eapply (deleteRoutine_outcomes routines1 "1").
    + reflexivity.
    + left. reflexivity.
  - eexists. eapply (deleteRoutine_outcomes routines1 "1").
    + reflexivity.
    + left. reflexivity.
  - eapply (deleteRoutine_outcomes routines1 "3").
    + reflexivity.
    + reflexivity.
  - eapply (deleteRoutine_outcomes routines1 "3").
    + reflexivity.
    + reflexivity.
Defined.

End RoutineCases.

(** ** Arrays: [find], [findIndex] and assignment at an index *)

Section FindIndex.
Import Js.
Local Open Scope Z_scope.

Context {A : Type} (p : A → bool).

(** [find] and [findIndex] stop at the same element. *)
Lemma find_findIndex_from (l : list A) :
  ∀ k, 0 ≤ k →
    match find p l with
    | Some x =>
        ∃ i : nat,
          findIndex_from p l k = k + Z.of_nat i
          ∧ l !! i = Some x
          ∧ p x = true
          ∧ ∀ (j : nat) y, (j < i)%nat → l !! j = Some y → p y = false
    | None =>
        findIndex_from p l k = -1 ∧ Forall (λ y, p y = false) l
    end.
Proof.
  induction l as [|x l IH]; intros k Hk; simpl.
  - split; [done | constructor].
  - destruct (p x) eqn:Hx.
    + exists 0%nat. split_and!; [lia | done | done |]. intros j y Hj. lia.
    + specialize (IH (k + 1) ltac:(lia)).
      destruct (find p l) as [x'|].
      * destruct IH as (i & Hidx & Hlook & Hp & Hbefore).
        exists (S i). split_and!; [lia | done | done |].
        intros [|j] y Hj; simpl.
        -- intros [= <-]. done.
        -- apply Hbefore. lia.
      * destruct IH as [Hidx Hall]. split; [done | by constructor].
Qed.

Lemma find_Some_findIndex (l : list A) x :
  find p l = Some x →
  ∃ i : nat,
    findIndex p l = Z.of_nat i
    ∧ l !! i = Some x
    ∧ p x = true
    ∧ ∀ (j : nat) y, (j < i)%nat → l !! j = Some y → p y = false.
Proof.
  intros Hfind. pose proof (find_findIndex_from l 0 (Z.le_refl 0)) as Hspec.
  rewrite Hfind in Hspec. destruct Hspec as (i & Hidx & Hrest).
  exists i. split; [unfold findIndex; lia | done].
Qed.

Lemma find_None_findIndex (l : list A) :
  find p l = None →
  findIndex p l = -1 ∧ Forall (λ y, p y = false) l.
Proof.
  intros Hfind. pose proof (find_findIndex_from l 0 (Z.le_refl 0)) as Hspec.
  rewrite Hfind in Hspec. done.
Qed.

(** [l[i] = y] where [i] is the first index that satisfies [p], and
    [y] satisfies [p] as well: [find] returns [y]. *)
Lemma find_insert_first (l : list A) (i : nat) x y :
  l !! i = Some x →
  (∀ (j : nat) z, (j < i)%nat → l !! j = Some z → p z = false) →
  p y = true →
  find p (<[i:=y]> l) = Some y.
Proof.
  revert i. induction l as [|a l IH]; intros [|i] Hlook Hbefore Hy; simpl in *;
    try done.
  - rewrite Hy. done.
  - rewrite (Hbefore 0%nat a) by (done || lia).
    apply IH; [done | | done].
    intros j z Hj Hz. apply (Hbefore (S j) z); [lia | done].
Qed.

(** [l[i] = y] where neither the old nor the new element satisfies
    [p]: [find] is not affected. *)
Lemma find_insert_other (l : list A) (i : nat) x y :
  l !! i = Some x → p x = false → p y = false →
  find p (<[i:=y]> l) = find p l.
Proof.
  revert i. induction l as [|a l IH]; intros [|i] Hlook Hx Hy; simpl in *;
    try done.
  - injection Hlook as ->. rewrite Hx, Hy. done.
  - destruct (p a); [done|]. by apply IH.
Qed.

Lemma find_app_None (l : list A) y :
  find p l = None → find p (l ++ [y]) = if p y then Some y else None.
Proof.
  induction l as [|a l IH]; simpl; [done|].
  destruct (p a); [done | apply IH].
Qed.

End FindIndex.

(** ** Sessions: the in-memory repository *)

Section MockSessions.
Import Models Js IRepositories.
Local Open Scope Z_scope.

Lemma getById_id (repo : MockSessionRepository.t) id session :
  session_getById repo id = Some session → s_id session = id.
Proof.
  simpl. unfold MockSessionRepository.getById. intros Hfind.
  apply find_Some_findIndex in Hfind as (i & _ & _ & Hp & _).
  apply String.eqb_eq in Hp. done.
Qed.

(** [update] of a stored session: the id resolves to the new object. *)
Lemma getById_update_same (repo : MockSessionRepository.t) id session session' :
  session_getById repo id = Some session →
  s_id session' = s_id session →
  session_getById (session_update repo session') id = Some session'.
Proof.
  intros Hget Hid. pose proof (getById_id repo id session Hget) as Hsid.
  simpl in *. unfold MockSessionRepository.getById, MockSessionRepository.update in *.
  rewrite Hid, Hsid.
  apply find_Some_findIndex in Hget as (i & Hidx & Hlook & Hp & Hbefore).
  rewrite Hidx. destruct (Z.eqb_spec (Z.of_nat i) (-1)) as [Hneg|_]; [lia|].
  simpl. rewrite Nat2Z.id.
  apply (find_insert_first _ _ i session); [done | done |].
  apply String.eqb_eq. congruence.
Qed.

(** [update] does not touch what the other ids resolve to. *)
Lemma getById_update_other (repo : MockSessionRepository.t) session' other :
  other ≠ s_id session' →
  session_getById (session_update repo session') other
  = session_getById repo other.
Proof.
  intros Hne. simpl.
  unfold MockSessionRepository.getById, MockSessionRepository.update.
  destruct (find (λ s, String.eqb (s_id s) (s_id session'))
              (MockSessionRepository.sessions repo)) as [x|] eqn:Hfind.
  - apply find_Some_findIndex in Hfind as (i & Hidx & Hlook & Hp & _).
    rewrite Hidx. destruct (Z.eqb_spec (Z.of_nat i) (-1)) as [Hneg|_]; [lia|].
    simpl. rewrite Nat2Z.id.
    apply String.eqb_eq in Hp.
    apply (find_insert_other _ _ i x); [done | |].
    + apply String.eqb_neq. congruence.
    + apply String.eqb_neq. congruence.
  - apply find_None_findIndex in Hfind as [-> _]. done.
Qed.

Lemma update_length (repo : MockSessionRepository.t) session' :
  length (MockSessionRepository.sessions (session_update repo session'))
  = length (MockSessionRepository.sessions repo)
  ∧ MockSessionRepository.nextId (session_update repo session')
    = MockSessionRepository.nextId repo.
Proof.
  simpl. unfold MockSessionRepository.update.
  destruct (_ =? -1); simpl; [done|]. rewrite length_insert. done.
Qed.

End MockSessions.

(** ** Sessions: recording a completion *)

Section Completions.
Import Models Js IRepositories SessionService.
Local Open Scope Z_scope.

(** The test of [findIndex] in [markExerciseComplete]. *)
Local Abbreviation same_exercise exerciseId :=
  (λ e, String.eqb (c_exerciseId e) exerciseId).

Lemma find_completion_elem_of exercises exerciseId :
  exerciseId ∈ c_exerciseId <$> exercises
  ↔ is_Some (find (same_exercise exerciseId) exercises).
Proof.
  induction exercises as [|c l IH]; simpl.
  - rewrite elem_of_nil. split; [done | intros [? [=]]].
  - rewrite elem_of_cons, IH.
    destruct (String.eqb_spec (c_exerciseId c) exerciseId) as [Hc|Hc].
    + split; [eauto | auto].
    + split; [intros [?|?]; [congruence | done] | auto].
Qed.

(** The id was recorded before: the first record with this id is
    overwritten, everything else stays where it is. *)
Lemma upsertCompletion_present exercises completion :
  c_exerciseId completion ∈ c_exerciseId <$> exercises →
  ∃ (i : nat) old,
    exercises !! i = Some old
    ∧ c_exerciseId old = c_exerciseId completion
    ∧ upsertCompletion exercises completion = <[i:=completion]> exercises.
Proof.
  intros [old Hfind]%find_completion_elem_of. unfold upsertCompletion.
  apply find_Some_findIndex in Hfind as (i & -> & Hlook & Hp & _).
  exists i, old. apply String.eqb_eq in Hp.
  destruct (Z.leb_spec 0 (Z.of_nat i)); [|lia].
  rewrite Nat2Z.id. done.
Qed.

(** The id was not recorded before: one record is added at the end. *)
Lemma upsertCompletion_absent exercises completion :
  c_exerciseId completion ∉ c_exerciseId <$> exercises →
  upsertCompletion exercises completion = exercises ++ [completion].
Proof.
  intros Habsent. unfold upsertCompletion.
  destruct (find (same_exercise (c_exerciseId completion)) exercises)
    as [old|] eqn:Hfind.
  - exfalso. apply Habsent, find_completion_elem_of. eauto.
  - apply find_None_findIndex in Hfind as [-> _]. done.
Qed.

Lemma upsertCompletion_ids exercises completion :
  c_exerciseId <$> upsertCompletion exercises completion
  = if bool_decide (c_exerciseId completion ∈ c_exerciseId <$> exercises)
    then c_exerciseId <$> exercises
    else (c_exerciseId <$> exercises) ++ [c_exerciseId completion].
Proof.
  case_bool_decide as Hin.
  - destruct (upsertCompletion_present _ _ Hin) as (i & old & Hlook & Hid & ->).
    rewrite list_fmap_insert, <- Hid. apply list_insert_id.
    rewrite list_lookup_fmap, Hlook. done.
  - rewrite upsertCompletion_absent by done. rewrite fmap_app. done.
Qed.

Lemma upsertCompletion_elem_of exercises completion :
  completion ∈ upsertCompletion exercises completion.
Proof.
  destruct (decide (c_exerciseId completion ∈ c_exerciseId <$> exercises))
    as [Hin|Hin].
  - destruct (upsertCompletion_present _ _ Hin) as (i & old & Hlook & _ & ->).
    apply list_elem_of_lookup. exists i.
    apply list_lookup_insert_eq. eapply lookup_lt_Some, Hlook.
  - rewrite upsertCompletion_absent by done.
    apply elem_of_app. right. apply list_elem_of_singleton. done.
Qed.

Lemma upsertCompletion_NoDup exercises completion :
  NoDup (c_exerciseId <$> exercises) →
  NoDup (c_exerciseId <$> upsertCompletion exercises completion).
Proof.
  intros Hnd. rewrite upsertCompletion_ids. case_bool_decide as Hin; [done|].
  apply NoDup_app. split_and!; [done | | apply NoDup_singleton].
  intros id Hid ->%list_elem_of_singleton. done.
Qed.

(** In a list without two records of the same exercise, a record is
    determined by its exercise id. *)
Lemma NoDup_ids_inj (l : list ExerciseCompletion) c1 c2 :
  NoDup (c_exerciseId <$> l) →
  c1 ∈ l → c2 ∈ l → c_exerciseId c1 = c_exerciseId c2 → c1 = c2.
Proof.
  intros Hnd [i Hi]%list_elem_of_lookup [j Hj]%list_elem_of_lookup Hid.
  assert (i = j) as ->.
  { eapply (NoDup_lookup _ i j (c_exerciseId c1)); [done | |].
    - rewrite list_lookup_fmap, Hi. done.
    - rewrite list_lookup_fmap, Hj, Hid. done. }
  congruence.
Qed.

End Completions.

(** ** Sessions: [markExerciseComplete] on a stored session *)

Section MarkExerciseComplete.
Import Models Js IRepositories SessionService.
Local Open Scope Z_scope.

(** On a stored session the call succeeds, and afterwards the id
    resolves to the session with the completion merged in. *)
Lemma markExerciseComplete_stored (repo : MockSessionRepository.t)
    sessionId session exerciseId reps duration :
  session_getById repo sessionId = Some session →
  (markExerciseComplete repo sessionId exerciseId reps duration).2 = Ok tt
  ∧ session_getById
      (markExerciseComplete repo sessionId exerciseId reps duration).1 sessionId
    = Some (withCompletion session (mkCompletion exerciseId true reps duration)).
Proof.
  intros Hget. unfold markExerciseComplete. rewrite Hget. simpl fst. simpl snd.
  split; [done|].
  apply (getById_update_same repo sessionId session); done.
Qed.

Lemma markExerciseComplete_not_found (repo : MockSessionRepository.t)
    sessionId exerciseId reps duration :
  session_getById repo sessionId = None →
  markExerciseComplete repo sessionId exerciseId reps duration
  = (repo, Err "Session not found").
Proof. intros Hget. unfold markExerciseComplete. rewrite Hget. done. Qed.

(** C5.  Recording a completion in a stored session is an upsert.
    When the exercise id is already in the collection, the length of
    the collection and the records of the other exercises do not
    change; when it is not, exactly one record is added at the end.
    In both cases the collection holds the record with the values
    just supplied, and a collection with at most one record per
    exercise id stays so, the record of this id being the new one. *)
Theorem markExerciseComplete_upserts (repo : MockSessionRepository.t)
    (sessionId : string) (session : SessionLog)
    (exerciseId : string) (reps duration : option Z) :
  session_getById repo sessionId = Some session →
  let completion := mkCompletion exerciseId true reps duration in
  ∃ session',
    session_getById
      (markExerciseComplete repo sessionId exerciseId reps duration).1 sessionId
    = Some session'
    ∧ completion ∈ s_exercises session'
    ∧ (exerciseId ∈ c_exerciseId <$> s_exercises session →
       length (s_exercises session') = length (s_exercises session)
       ∧ c_exerciseId <$> s_exercises session'
         = c_exerciseId <$> s_exercises session
       ∧ ∀ (i : nat) c,
           s_exercises session !! i = Some c →
           c_exerciseId c ≠ exerciseId →
           s_exercises session' !! i = Some c)
    ∧ (exerciseId ∉ c_exerciseId <$> s_exercises session →
       s_exercises session' = s_exercises session ++ [completion])
    ∧ (NoDup (c_exerciseId <$> s_exercises session) →
       NoDup (c_exerciseId <$> s_exercises session')
       ∧ ∀ c, c ∈ s_exercises session' → c_exerciseId c = exerciseId →
              c = completion).
Proof.
  intros Hget completion.
  destruct (markExerciseComplete_stored repo sessionId session exerciseId
              reps duration Hget) as [_ Hstored].
  exists (withCompletion session completion). simpl s_exercises.
  split_and!.
  - exact Hstored.
  - apply upsertCompletion_elem_of.
  - intros Hin.
    destruct (upsertCompletion_present (s_exercises session) completion Hin)
      as (i & old & Hlook & Hid & Hupsert).
    split_and!.
    + rewrite Hupsert. apply length_insert.
    + rewrite upsertCompletion_ids. rewrite bool_decide_eq_true_2; done.
    + intros j c Hj Hc. rewrite Hupsert.
      rewrite list_lookup_insert_ne; [done|].
      intros ->. simpl in Hid. congruence.
  - intros Hnotin. apply upsertCompletion_absent. done.
  - intros Hnd.
    pose proof (upsertCompletion_NoDup _ completion Hnd) as Hnd'.
    split; [done|].
    intros c Hc Hid.
    apply (NoDup_ids_inj _ c completion Hnd' Hc); [|done].
    apply upsertCompletion_elem_of.
Qed.

(** C10.  Recording a completion in a stored session changes nothing
    of the session but its collection of completions: the id, the
    routine id, the start time, the end time and the completed flag
    of the stored session are what they were.  The other sessions are
    what they were as well. *)
Theorem markExerciseComplete_frame (repo : MockSessionRepository.t)
    (sessionId : string) (session : SessionLog)
    (exerciseId : string) (reps duration : option Z) :
  session_getById repo sessionId = Some session →
  let repo' :=
    (markExerciseComplete repo sessionId exerciseId reps duration).1 in
  (∃ session',
     session_getById repo' sessionId = Some session'
     ∧ s_id session' = s_id session
     ∧ s_routineId session' = s_routineId session
     ∧ s_startTime session' = s_startTime session
     ∧ s_endTime session' = s_endTime session
     ∧ s_completed session' = s_completed session)
  ∧ (∀ other, other ≠ sessionId →
       session_getById repo' other = session_getById repo other)
  ∧ length (MockSessionRepository.sessions repo')
    = length (MockSessionRepository.sessions repo).
Proof.
  intros Hget repo'.
  destruct (markExerciseComplete_stored repo sessionId session exerciseId
              reps duration Hget) as [_ Hstored].
  split_and!.
  - eexists. split; [exact Hstored|]. done.
  - intros other Hne. subst repo'. unfold markExerciseComplete.
    rewrite Hget. simpl fst.
    apply getById_update_other. simpl.
    rewrite (getById_id repo sessionId session Hget). done.
  - subst repo'. unfold markExerciseComplete. rewrite Hget. simpl fst.
    apply update_length.
Qed.

End MarkExerciseComplete.

(** ** Sessions: starting a guided workout *)

Section StartSession.
Import Models Js IRepositories RoutineService SessionService SessionScreen.
Local Open Scope Z_scope.

Context {R E : Type} `{IRoutineRepository R} `{IExerciseRepository E}.

(** C9.  Starting a guided workout ([loadSession]) first resolves the
    routine.  For an id that does not resolve, the resolution fails
    with "Routine not found", which ends the start: no session is
    saved and the screen has no session id.  For a routine that
    resolves, one session is saved after the others, with the routine
    id, the current time as start time, no end time, an empty
    collection of completions and [completed = false]; its id is
    returned and kept by the screen, and it resolves to this session
    (provided the id was not in use). *)
Theorem loadSession_starts_session
    (routineRepository : R) (exerciseRepository : E)
    (sessionRepository : MockSessionRepository.t)
    (now : Z) (routineId routineName : string) (screen : Screen) :
  (routine_getById routineRepository routineId = None →
   getRoutineExercises routineRepository exerciseRepository routineId
   = Err "Routine not found"
   ∧ startSession routineRepository exerciseRepository sessionRepository
       now routineId
     = (sessionRepository, Err "Routine not found")
   ∧ (loadSession routineRepository exerciseRepository sessionRepository
        now routineId routineName screen).1 = sessionRepository
   ∧ sessionId
       (loadSession routineRepository exerciseRepository sessionRepository
          now routineId routineName screen).2 = sessionId screen)
  ∧ (∀ routine,
       routine_getById routineRepository routineId = Some routine →
       let created :=
         {| s_id := pretty (MockSessionRepository.nextId sessionRepository);
            s_routineId := routineId;
            s_startTime := now;
            s_endTime := None;
            s_exercises := [];
            s_completed := false |} in
       let started :=
         startSession routineRepository exerciseRepository sessionRepository
           now routineId in
       started.2
       = Ok (resolveExercises exerciseRepository (r_exerciseIds routine),
             s_id created)
       ∧ MockSessionRepository.sessions started.1
         = MockSessionRepository.sessions sessionRepository ++ [created]
       ∧ (loadSession routineRepository exerciseRepository sessionRepository
            now routineId routineName screen).1 = started.1
       ∧ sessionId
           (loadSession routineRepository exerciseRepository sessionRepository
              now routineId routineName screen).2 = Some (s_id created)
       ∧ (session_getById sessionRepository (s_id created) = None →
          session_getById started.1 (s_id created) = Some created)).
Proof.
  split.
  - intros Hget. unfold loadSession, startSession, getRoutineExercises.
    rewrite Hget. done.
  - intros routine Hget created started. subst started.
    unfold loadSession, startSession, getRoutineExercises.
    rewrite Hget. simpl. split_and!; try done.
    intros Hfresh. unfold MockSessionRepository.getById in *. simpl.
    rewrite find_app_None by done. simpl.
    rewrite String.eqb_refl. done.
Qed.

(** [SessionService.createSession] itself does not look at the routine
    repository: the check of the routine is the resolution that
    [loadSession] makes before it. *)
Lemma createSession_saves (sessionRepository : MockSessionRepository.t)
    (now : Z) (routineId : string) :
  MockSessionRepository.sessions
    (createSession sessionRepository now routineId).1
  = MockSessionRepository.sessions sessionRepository
    ++ [ {| s_id := (createSession sessionRepository now routineId).2;
            s_routineId := routineId;
            s_startTime := now;
            s_endTime := None;
            s_exercises := [];
            s_completed := false |} ].
Proof. reflexivity. Qed.

End StartSession.

(** ** The cases of the tests *)

Section SessionCases.
Import Models Js IRepositories SessionRepository SessionService SessionScreen.
Import Cases.
Local Open Scope Z_scope.

Lemma history_days :
  ∀ d, completedOn history d
       ↔ d ∈ [today; today - 1; today - 2; today - 4].
Proof.
  intros d. unfold completedOn, history. split.
  - intros (r & Hr & Hdone & <-).
    rewrite !elem_of_cons, elem_of_nil in Hr.
    destruct Hr as [->|[->|[->|[->|[->|[->|[]]]]]]]; simpl in *;
      try discriminate; rewrite !elem_of_cons; vm_compute; tauto.
  - rewrite !elem_of_cons, elem_of_nil.
    intros [->|[->|[->|[->|[]]]]].
    + exists (row 7 20000 1). rewrite !elem_of_cons. tauto.
    + exists (row 5 19999 1). rewrite !elem_of_cons. tauto.
    + exists (row 4 19998 1). rewrite !elem_of_cons. tauto.
    + exists (row 2 19996 1). rewrite !elem_of_cons. tauto.
Defined.

(** The history with one gap day: streaks of 3, last session today. *)
Lemma streak_across_one_gap_day_history :
  currentStreak (getStatistics today history) = 3
  ∧ longestStreak (getStatistics today history) = 3
  ∧ lastSessionDate (getStatistics today history) = Some today.
Proof. exact (streak_across_one_gap_day today history history_days). Defined.

(** Ten repetitions, then twelve, of the same exercise: one record,
    with twelve. *)
Lemma markExerciseComplete_twice :
  ∃ session',
    session_getById
      (markExerciseComplete sessions2 "1" "1" (Some 12) None).1 "1"
    = Some session'
    ∧ length (s_exercises session') = 1%nat
    ∧ mkCompletion "1" true (Some 12) None ∈ s_exercises session'.
Proof.
  assert (Hget : session_getById sessions2 "1"
                 = Some {| s_id := "1"; s_routineId := "1"; s_startTime := now;
                           s_endTime := None;
                           s_exercises := [mkCompletion "1" true (Some 10) None];
                           s_completed := false |}) by reflexivity.
  destruct (markExerciseComplete_upserts sessions2 "1" _ "1" (Some 12) None Hget)
    as (session' & Hstored & Hin & Hpresent & _).
  exists session'. split; [exact Hstored|]. split; [|exact Hin].
  destruct Hpresent as [Hlen _].
  - simpl. apply list_elem_of_singleton. reflexivity.
  - exact Hlen.
Defined.

(** The same call leaves the rest of the session alone. *)
Lemma markExerciseComplete_frame_case :
  ∃ session',
    session_getById
      (markExerciseComplete sessions2 "1" "1" (Some 12) None).1 "1"
    = Some session'
    ∧ s_id session' = "1"%string
    ∧ s_routineId session' = "1"%string
    ∧ s_startTime session' = now
    ∧ s_endTime session' = None
    ∧ s_completed session' = false.
Proof.
  assert (Hget : session_getById sessions2 "1"
                 = Some {| s_id := "1"; s_routineId := "1"; s_startTime := now;
                           s_endTime := None;
                           s_exercises := [mkCompletion "1" true (Some 10) None];
                           s_completed := false |}) by reflexivity.
  destruct (markExerciseComplete_frame sessions2 "1" _ "1" (Some 12) None Hget)
    as ((session' & Hstored & Hfields) & _).
  exists session'. split; [exact Hstored | exact Hfields].
Defined.

(** Starting routine 999 (unknown) and routine 1 on the seeded
    repositories. *)
Lemma loadSession_cases :
  (loadSession routines0 catalog0 MockSessionRepository.initial
     now "999" "Nothing" initialScreen).1 = MockSessionRepository.initial
  ∧ sessionId
      (loadSession routines0 catalog0 MockSessionRepository.initial
         now "999" "Nothing" initialScreen).2 = None
  ∧ sessionId
      (loadSession routines0 catalog0 MockSessionRepository.initial
         now "1" "Morning Routine" initialScreen).2 = Some "1"%string
  ∧ session_getById
      (startSession routines0 catalog0 MockSessionRepository.initial now "1").1
      "1"
    = Some {| s_id := "1"; s_routineId := "1"; s_startTime := now;
              s_endTime := None; s_exercises := []; s_completed := false |}.
Proof.
  destruct (loadSession_starts_session routines0 catalog0
              MockSessionRepository.initial now "999" "Nothing" initialScreen)
    as [Hunknown _].
  destruct (Hunknown eq_refl) as (_ & _ & Hrepo & Hscreen).
  destruct (loadSession_starts_session routines0 catalog0
              MockSessionRepository.initial now "1" "Morning Routine"
              initialScreen) as [_ Hknown].
  destruct (Hknown _ eq_refl) as (_ & _ & _ & Hid & Hstored).
  split; [exact Hrepo|]. split; [exact Hscreen|]. split; [exact Hid|].
  exact (Hstored eq_refl).
Defined.

End SessionCases.

(* ===================================================================== *)
(** * Further properties of the statistics *)
(* ===================================================================== *)

Section StatisticsMore.
Import Models Js SessionRepository.
Local Open Scope Z_scope.

Lemma StronglySorted_le_NoDup_lt (l : list Z) :
  StronglySorted Z.le l → NoDup l → StronglySorted Z.lt l.
Proof.
  induction 1 as [|x l Hsorted IH Hall]; intros Hnd; [constructor|].
  apply NoDup_cons in Hnd as [Hx Hnd]. constructor; [by apply IH|].
  rewrite Forall_forall in *. intros y Hy.
  specialize (Hall y Hy). assert (x ≠ y) by (intros ->; done). lia.
Qed.

(** The distinct dates are strictly descending. *)
Lemma uniqueDates_descending session_logs :
  StronglySorted (flip Z.lt) (uniqueDates session_logs).
Proof.
  unfold uniqueDates. apply Sorted_StronglySorted; [intros x y z; unfold flip; lia|].
  apply Sorted_reverse, StronglySorted_Sorted, StronglySorted_le_NoDup_lt.
  - apply Sorted_StronglySorted; [apply _ | apply sortedDates_Sorted].
  - apply sortedDates_NoDup.
Qed.

Lemma lastSessionDate_head today session_logs :
  lastSessionDate (getStatistics today session_logs)
  = head (uniqueDates session_logs).
Proof. reflexivity. Qed.

Lemma new_Set_length xs : (length (new_Set xs) ≤ length xs)%nat.
Proof.
  unfold new_Set.
  assert (Hgen : ∀ acc, (length (fold_left Set_add xs acc)
                         ≤ length acc + length xs)%nat).
  { induction xs as [|x xs IH]; intros acc; simpl; [lia|].
    etransitivity; [apply IH|]. unfold Set_add.
    case_bool_decide; rewrite ?length_app; simpl; lia. }
  apply (Hgen []).
Qed.

Lemma uniqueDates_length session_logs :
  (length (uniqueDates session_logs) ≤ length session_logs)%nat.
Proof.
  unfold uniqueDates, sortedDates, completedSessions.
  rewrite length_reverse, merge_sort_Permutation.
  etransitivity; [apply new_Set_length|].
  rewrite merge_sort_Permutation, length_map. apply filter_length_le.
Qed.

(** X1.  A table without a completed session (empty, or unfinished
    sessions only) has no streak and no last session date, and the
    total still counts every row. *)
Theorem statistics_without_completed_session (today : Z)
    (session_logs : list DbSessionLog) :
  (∀ r, r ∈ session_logs → completed r ≠ 1) →
  getStatistics today session_logs
  = {| totalSessions := Z.of_nat (length session_logs);
       currentStreak := 0;
       longestStreak := 0;
       lastSessionDate := None |}.
Proof.
  intros Hnone.
  assert (Hdates : uniqueDates session_logs = []).
  { destruct (uniqueDates session_logs) as [|d rest] eqn:Hd; [done|].
    assert (Hin : d ∈ uniqueDates session_logs) by (rewrite Hd; left).
    apply uniqueDates_elem_of in Hin as (r & Hr & Hc & _).
    destruct (Hnone r Hr Hc). }
  rewrite getStatistics_unfold, Hdates. reflexivity.
Qed.

(** X2.  The last session date is the latest day with a completed
    session, whatever the order of the rows; it is absent exactly when
    no session is completed. *)
Theorem lastSessionDate_is_latest_completed_day (today : Z)
    (session_logs : list DbSessionLog) (d : Z) :
  (lastSessionDate (getStatistics today session_logs) = Some d
   ↔ completedOn session_logs d
     ∧ ∀ d', completedOn session_logs d' → d' ≤ d)
  ∧ (lastSessionDate (getStatistics today session_logs) = None
     ↔ ∀ d', ¬ completedOn session_logs d').
Proof.
  rewrite lastSessionDate_head.
  pose proof (uniqueDates_descending session_logs) as Hdesc.
  setoid_rewrite <- uniqueDates_elem_of.
  destruct (uniqueDates session_logs) as [|d0 rest]; simpl.
  - split.
    + split; [done|]. intros [Hd _]. by apply elem_of_nil in Hd.
    + split; [|done]. intros _ d'. apply not_elem_of_nil.
  - apply StronglySorted_inv in Hdesc as [_ Hall].
    rewrite Forall_forall in Hall. unfold flip in Hall. split.
    + split.
      * intros [= <-]. split; [left|].
        intros d' [->|Hd']%elem_of_cons; [lia|]. specialize (Hall d' Hd'). lia.
      * intros [[->|Hd]%elem_of_cons Hmax]; [done|].
        specialize (Hall d Hd). specialize (Hmax d0 ltac:(left)). lia.
    + split; [done|]. intros Hnone. destruct (Hnone d0). left.
Qed.

Lemma currentLoop_cur_ge today dates :
  ∀ prev st, cur st ≤ cur (currentLoop today prev dates st).
Proof.
  induction dates as [|d rest IH]; intros prev st; simpl; [lia|].
  destruct prev as [p|].
  - destruct (p - d =? 1); [|lia]. etransitivity; [|apply IH]. simpl. lia.
  - destruct ((today - d =? 0) || (today - d =? 1)); [|lia].
    etransitivity; [|apply IH]. simpl. lia.
Qed.

(** X3.  The current streak is never negative, and it is at least 1
    exactly when the latest completed day is today or yesterday; a
    latest day in the future or two or more days back gives 0. *)
Theorem currentStreak_anchored_at_today_or_yesterday (today : Z)
    (session_logs : list DbSessionLog) :
  0 ≤ currentStreak (getStatistics today session_logs)
  ∧ (1 ≤ currentStreak (getStatistics today session_logs)
     ↔ ∃ d, lastSessionDate (getStatistics today session_logs) = Some d
            ∧ (d = today ∨ d = today - 1)).
Proof.
  rewrite getStatistics_unfold. simpl.
  destruct (uniqueDates session_logs) as [|d0 rest]; simpl.
  - split; [lia|]. split; [lia | intros (d & [=] & _)].
  - rewrite longestLoop_cur. simpl.
    destruct (Z.eqb_spec (today - d0) 0) as [H0|H0];
      destruct (Z.eqb_spec (today - d0) 1) as [H1|H1]; simpl.
    all: try (pose proof (currentLoop_cur_ge today rest (Some d0)
                            (mkCounters (0 + 1) (Z.max 0 1) 1)) as Hge;
              simpl in Hge; split; [lia|]; split; [|lia];
              intros _; exists d0; split; [done | lia]).
    split; [lia|]. split; [lia|]. intros (d & [= <-] & Hd). lia.
Qed.

(** The first loop counts the days [p], [p - 1], ... as long as they
    are in the list, and stops at the first one that is not. *)
Lemma currentLoop_counts_run today dates :
  ∀ p st, StronglySorted (flip Z.lt) (p :: dates) →
    let k := cur (currentLoop today (Some p) dates st) - cur st in
    0 ≤ k
    ∧ (∀ j, 0 ≤ j ≤ k → p - j ∈ p :: dates)
    ∧ p - k - 1 ∉ p :: dates.
Proof.
  induction dates as [|d rest IH]; intros p st Hdesc; simpl.
  - split; [lia|]. split.
    + intros j Hj. replace (p - j) with p by lia. left.
    + rewrite list_elem_of_singleton. lia.
  - apply StronglySorted_inv in Hdesc as [Hdesc Hall].
    pose proof Hall as Hall'. rewrite Forall_forall in Hall'. unfold flip in Hall'.
    destruct (Z.eqb_spec (p - d) 1) as [Hstep|Hstep].
    + specialize (IH d (mkCounters (cur st + 1)
                          (Z.max (longest st) (temp st + 1)) (temp st + 1)) Hdesc).
      simpl in IH. destruct IH as (Hk & Hrun & Hstop).
      set (c := cur (currentLoop today (Some d) rest _)) in *.
      split; [lia|]. split.
      * intros j Hj. destruct (decide (j = 0)) as [->|Hj0].
        -- replace (p - 0) with p by lia. left.
        -- right. replace (p - j) with (d - (j - 1)) by lia. apply Hrun. lia.
      * replace (p - (c - cur st) - 1) with (d - (c - (cur st + 1)) - 1) by lia.
        intros [Heq|Hin]%elem_of_cons; [lia | done].
    + split; [lia|]. split.
      * intros j Hj. replace (p - j) with p by lia. left.
      * replace (p - (cur st - cur st) - 1) with (p - 1) by lia.
        intros [Heq|Hin]%elem_of_cons; [lia|].
        apply elem_of_cons in Hin as [Heq|Hin]; [lia|].
        apply StronglySorted_inv in Hdesc as [_ Hrest].
        rewrite Forall_forall in Hrest. unfold flip in Hrest.
        pose proof (Hrest (p - 1) Hin). pose proof (Hall' d ltac:(left)). lia.
Qed.

(** X4.  The current streak counts consecutive days: with [d] the
    latest completed day and [k] the current streak, each of the [k]
    days [d], [d - 1], ..., [d - k + 1] has a completed session, and
    (when [k] is not 0) the day [d - k] has none. *)
Theorem currentStreak_counts_consecutive_days (today : Z)
    (session_logs : list DbSessionLog) (d : Z) :
  lastSessionDate (getStatistics today session_logs) = Some d →
  (∀ j, 0 ≤ j < currentStreak (getStatistics today session_logs) →
        completedOn session_logs (d - j))
  ∧ (1 ≤ currentStreak (getStatistics today session_logs) →
     ¬ completedOn session_logs
         (d - currentStreak (getStatistics today session_logs))).
Proof.
  rewrite lastSessionDate_head.
  pose proof (uniqueDates_descending session_logs) as Hdesc.
  setoid_rewrite <- uniqueDates_elem_of.
  rewrite getStatistics_unfold. simpl.
  destruct (uniqueDates session_logs) as [|d0 rest]; [done|].
  simpl. intros [= <-]. rewrite longestLoop_cur. simpl.
  destruct ((today - d0 =? 0) || (today - d0 =? 1)); simpl; [|split; lia].
  pose proof (currentLoop_counts_run today rest d0
                (mkCounters (0 + 1) (Z.max 0 1) 1) Hdesc) as Hrun.
  simpl in Hrun. destruct Hrun as (Hk & Hrun & Hstop).
  set (c := cur (currentLoop today (Some d0) rest _)) in *.
  split.
  - intros j Hj. apply Hrun. lia.
  - intros _. replace (d0 - c) with (d0 - (c - 1) - 1) by lia. done.
Qed.

(** X5.  The current streak, the longest streak and the last session
    date depend on the table only through the set of days with a
    completed session: neither the order of the rows, nor unfinished
    sessions, nor the number of completed sessions on a day changes any
    of the three.  ([totalSessions] is the number of rows, and the
    [completionRate] of the source, which the record leaves out,
    depends on the number of rows and of completed rows.) *)
Theorem statistics_depend_on_completed_days (today : Z)
    (logs1 logs2 : list DbSessionLog) :
  (∀ d, completedOn logs1 d ↔ completedOn logs2 d) →
  currentStreak (getStatistics today logs1)
  = currentStreak (getStatistics today logs2)
  ∧ longestStreak (getStatistics today logs1)
    = longestStreak (getStatistics today logs2)
  ∧ lastSessionDate (getStatistics today logs1)
    = lastSessionDate (getStatistics today logs2).
Proof.
  intros Hdays.
  assert (Hdates : uniqueDates logs2 = uniqueDates logs1).
  { unfold uniqueDates at 2.
    apply uniqueDates_characterised.
    - apply sortedDates_Sorted.
    - apply sortedDates_NoDup.
    - intros d. rewrite sortedDates_elem_of. symmetry. apply Hdays. }
  rewrite !getStatistics_unfold, Hdates. simpl. done.
Qed.

End StatisticsMore.

Section StreakBounds.
Import Models Js SessionRepository.
Local Open Scope Z_scope.

Lemma currentLoop_longest_bound today dates :
  ∀ p st, 0 ≤ temp st →
    longest (currentLoop today (Some p) dates st)
    ≤ Z.max (longest st) (temp st + Z.of_nat (length dates)).
Proof.
  induction dates as [|d rest IH]; intros p st Htemp; simpl length; simpl; [lia|].
  destruct (p - d =? 1); [|lia].
  etransitivity; [apply IH; simpl; lia|]. simpl. lia.
Qed.

Lemma longestLoop_longest_bound prev dates :
  ∀ st, 0 ≤ temp st →
    longest (longestLoop prev dates st)
    ≤ Z.max (longest st) (temp st + Z.of_nat (length dates)).
Proof.
  revert prev. induction dates as [|d rest IH]; intros prev st Htemp;
    simpl length; simpl; [lia|].
  destruct (prev - d =? 1).
  - etransitivity; [apply IH; simpl; lia|]. simpl. lia.
  - etransitivity; [apply IH; simpl; lia|]. simpl. lia.
Qed.

Lemma longestLoop_longest_ge prev dates :
  ∀ st, 0 ≤ longest st → 0 ≤ longest (longestLoop prev dates st).
Proof.
  intros st Hst. etransitivity; [|apply longestLoop_mono]. done.
Qed.

(** X6.  The longest streak lies between 0 and the number of distinct
    days with a completed session, which is at most the total number
    of sessions. *)
Theorem longestStreak_bounded_by_distinct_days (today : Z)
    (session_logs : list DbSessionLog) :
  0 ≤ longestStreak (getStatistics today session_logs)
  ∧ longestStreak (getStatistics today session_logs)
    ≤ Z.of_nat (length (uniqueDates session_logs))
  ∧ Z.of_nat (length (uniqueDates session_logs))
    ≤ totalSessions (getStatistics today session_logs).
Proof.
  split_and!.
  - rewrite getStatistics_unfold. simpl.
    pose proof (currentLoop_longest today (uniqueDates session_logs) None
                  (mkCounters 0 0 0) (conj eq_refl (Z.le_refl 0))) as Hpos.
    simpl in Hpos.
    destruct (uniqueDates session_logs) as [|d0 rest]; simpl in *; [lia|].
    apply longestLoop_longest_ge. simpl. done.
  - rewrite getStatistics_unfold. simpl.
    destruct (uniqueDates session_logs) as [|d0 rest]; [simpl; lia|].
    etransitivity; [apply longestLoop_longest_bound; simpl; lia|].
    simpl length. simpl.
    destruct ((today - d0 =? 0) || (today - d0 =? 1)); simpl; [|lia].
    pose proof (currentLoop_longest_bound today rest d0
                  (mkCounters (0 + 1) (Z.max 0 1) 1) ltac:(simpl; lia)) as Hb.
    simpl in Hb. lia.
  - simpl. pose proof (uniqueDates_length session_logs). lia.
Qed.

(** The second loop keeps a run of days that are all in the list. *)
Lemma longestLoop_keeps_a_run (P : Z → Prop) prev dates :
  ∀ st,
    Forall P dates →
    (∀ j, 0 ≤ j < temp st → P (prev + j)) →
    (∃ d, ∀ j, 0 ≤ j < longest st → P (d + j)) →
    ∃ d, ∀ j, 0 ≤ j < longest (longestLoop prev dates st) → P (d + j).
Proof.
  revert prev. induction dates as [|d rest IH]; intros prev st Hall Htemp Hrun;
    simpl; [done|].
  apply Forall_cons in Hall as [Hd Hall].
  assert (Hnext : ∀ j, 0 ≤ j < temp st + 1 → prev - d = 1 → P (d + j)).
  { intros j Hj Hstep. destruct (decide (j = 0)) as [->|Hj0].
    - replace (d + 0) with d by lia. done.
    - replace (d + j) with (prev + (j - 1)) by lia. apply Htemp. lia. }
  destruct (Z.eqb_spec (prev - d) 1) as [Hstep|Hstep].
  - apply IH; simpl; [done | auto |].
    destruct (Z.max_spec (longest st) (temp st + 1)) as [[_ ->]|[_ ->]].
    + exists d. auto.
    + done.
  - apply IH; simpl; [done | | done].
    intros j Hj. replace (d + j) with d by lia. done.
Qed.

(** X7.  The longest streak is the length of a run that exists: there
    are that many consecutive days, each with a completed session. *)
Theorem longestStreak_is_a_run_of_completed_days (today : Z)
    (session_logs : list DbSessionLog) :
  ∃ d, ∀ j, 0 ≤ j < longestStreak (getStatistics today session_logs) →
            completedOn session_logs (d + j).
Proof.
  pose proof (uniqueDates_descending session_logs) as Hdesc.
  setoid_rewrite <- uniqueDates_elem_of.
  rewrite getStatistics_unfold. simpl.
  pose proof (currentLoop_longest_eq today (uniqueDates session_logs) None
                (mkCounters 0 0 0) (conj eq_refl (Z.le_refl 0)) eq_refl) as Heq.
  destruct (uniqueDates session_logs) as [|d0 rest] eqn:Hdates.
  - exists 0. simpl. intros j Hj. lia.
  - apply (longestLoop_keeps_a_run (λ x, x ∈ d0 :: rest)).
    + apply Forall_forall. intros x Hx. by right.
    + simpl. intros j Hj. replace (d0 + j) with d0 by lia. left.
    + simpl. simpl in Heq.
      destruct ((today - d0 =? 0) || (today - d0 =? 1)); simpl in *.
      * rewrite Heq. pose proof (currentLoop_counts_run today rest d0
                      (mkCounters (0 + 1) (Z.max 0 1) 1) Hdesc) as Hrun.
        simpl in Hrun. destruct Hrun as (Hk & Hrun & _).
        set (c := cur (currentLoop today (Some d0) rest _)) in *.
        exists (d0 - (c - 1)). intros j Hj.
        replace (d0 - (c - 1) + j) with (d0 - (c - 1 - j)) by lia.
        apply Hrun. lia.
      * exists 0. intros j Hj. lia.
Qed.

End StreakBounds.

(* ===================================================================== *)
(** * Further properties of the session service *)
(* ===================================================================== *)

Section FindMore.
Import Js.
Local Open Scope Z_scope.

Context {A : Type} (p : A → bool).

Lemma find_app_Some (l k : list A) x :
  find p l = Some x → find p (l ++ k) = Some x.
Proof.
  induction l as [|a l IH]; simpl; [done|]. destruct (p a); auto.
Qed.

Lemma find_Forall_false (l : list A) :
  Forall (λ y, p y = false) l → find p l = None.
Proof. induction 1 as [|a l Ha _ IH]; simpl; [done|]. by rewrite Ha. Qed.

(** [l[i] = y] at the first index that satisfies [p], with [y]
    satisfying [p]: [findIndex] still returns [i]. *)
Lemma findIndex_from_insert_first (l : list A) (i : nat) (k : Z) x y :
  l !! i = Some x →
  (∀ (j : nat) z, (j < i)%nat → l !! j = Some z → p z = false) →
  p y = true →
  findIndex_from p (<[i:=y]> l) k = k + Z.of_nat i.
Proof.
  intros Hlook Hbefore Hy.
  revert i k Hlook Hbefore. induction l as [|a l IH]; intros [|i] k Hlook Hbefore;
    simpl in *; try done.
  - rewrite Hy. lia.
  - rewrite (Hbefore 0%nat a) by (done || lia).
    rewrite (IH i (k + 1)); [lia | done |].
    intros j z Hj Hz. apply (Hbefore (S j) z); [lia | done].
Qed.

Lemma findIndex_insert_first (l : list A) (i : nat) x y :
  l !! i = Some x →
  (∀ (j : nat) z, (j < i)%nat → l !! j = Some z → p z = false) →
  p y = true →
  findIndex p (<[i:=y]> l) = Z.of_nat i.
Proof.
  intros Hlook Hbefore Hy. unfold findIndex.
  rewrite (findIndex_from_insert_first l i 0 x y) by done. lia.
Qed.

End FindMore.

Section MockSessionsMore.
Import Models Js IRepositories RepositoryMethods.
Import SessionService SessionServiceRest MockSessionMethods.
Local Open Scope Z_scope.

Local Abbreviation sessions := MockSessionRepository.sessions.
Local Abbreviation nextId := MockSessionRepository.nextId.

(** [update] keeps the list of ids and the counter. *)
Lemma update_ids (repo : MockSessionRepository.t) session' :
  s_id <$> sessions (session_update repo session') = s_id <$> sessions repo
  ∧ nextId (session_update repo session') = nextId repo.
Proof.
  simpl. unfold MockSessionRepository.update.
  destruct (find (λ s, String.eqb (s_id s) (s_id session')) (sessions repo))
    as [x|] eqn:Hfind.
  - apply find_Some_findIndex in Hfind as (i & -> & Hlook & Hp & _).
    destruct (Z.eqb_spec (Z.of_nat i) (-1)); [lia|]. simpl. split; [|done].
    rewrite Nat2Z.id, list_fmap_insert. apply list_insert_id.
    rewrite list_lookup_fmap, Hlook. simpl. f_equal.
    apply String.eqb_eq in Hp. done.
  - apply find_None_findIndex in Hfind as [-> _]. done.
Qed.

(** Two updates of the same session in a row: the second one wins. *)
Lemma update_update (repo : MockSessionRepository.t) session1 session2 :
  s_id session1 = s_id session2 →
  session_update (session_update repo session1) session2
  = session_update repo session2.
Proof.
  intros Hid. simpl. unfold MockSessionRepository.update. rewrite Hid.
  destruct (find (λ s, String.eqb (s_id s) (s_id session2)) (sessions repo))
    as [x|] eqn:Hfind.
  - apply find_Some_findIndex in Hfind as (i & Hidx & Hlook & Hp & Hbefore).
    rewrite Hidx. destruct (Z.eqb_spec (Z.of_nat i) (-1)); [lia|]. simpl.
    rewrite Nat2Z.id.
    rewrite (findIndex_insert_first _ _ i x); [|done|done|].
    + destruct (Z.eqb_spec (Z.of_nat i) (-1)); [lia|].
      rewrite Nat2Z.id, list_insert_insert_eq. done.
    + rewrite Hid. apply String.eqb_refl.
  - apply find_None_findIndex in Hfind as [Hidx _]. rewrite Hidx. simpl.
    rewrite Hidx. done.
Qed.

Lemma NoDup_fmap_filter {B} (f : SessionLog → B) (q : SessionLog → bool) l :
  NoDup (f <$> l) → NoDup (f <$> List.filter q l).
Proof.
  induction l as [|x l IH]; simpl; [done|].
  intros [Hx Hnd]%NoDup_cons. destruct (q x); simpl; [|auto].
  apply NoDup_cons. split; [|auto].
  intros (y & Hy & Hin)%list_elem_of_fmap. apply Hx.
  apply list_elem_of_fmap. exists y. split; [done|].
  apply list_elem_of_In in Hin. apply filter_In in Hin as [Hin _].
  apply list_elem_of_In. done.
Qed.

Lemma ids_issued_fresh (repo : MockSessionRepository.t) :
  ids_issued repo → session_getById repo (pretty (nextId repo)) = None.
Proof.
  intros [_ Hbelow]. simpl. apply find_Forall_false.
  eapply Forall_impl; [exact Hbelow|]. simpl.
  intros s (k & Hk & ->). apply String.eqb_neq.
  intros Heq. apply (inj pretty) in Heq. lia.
Qed.

(** X8.  Finishing a stored session marks it completed and sets its
    end time to the current time; its id, routine, start time and
    completions, the other sessions and the number of sessions stay as
    they are.  For an id that is not stored the call fails with
    "Session not found" and changes nothing. *)
Theorem finishSession_outcomes (repo : MockSessionRepository.t)
    (now : Z) (sessionId : string) :
  (session_getById repo sessionId = None →
   finishSession repo now sessionId = (repo, Err "Session not found"))
  ∧ (∀ session,
       session_getById repo sessionId = Some session →
       (finishSession repo now sessionId).2 = Ok tt
       ∧ session_getById (finishSession repo now sessionId).1 sessionId
         = Some {| s_id := s_id session;
                   s_routineId := s_routineId session;
                   s_startTime := s_startTime session;
                   s_endTime := Some now;
                   s_exercises := s_exercises session;
                   s_completed := true |}
       ∧ (∀ other, other ≠ sessionId →
            session_getById (finishSession repo now sessionId).1 other
            = session_getById repo other)
       ∧ length (sessions (finishSession repo now sessionId).1)
         = length (sessions repo)).
Proof.
  unfold finishSession. split.
  - intros ->. done.
  - intros session Hget. rewrite Hget. simpl fst. simpl snd. split_and!.
    + done.
    + apply (getById_update_same repo sessionId session); done.
    + intros other Hne. apply getById_update_other. simpl.
      rewrite (getById_id repo sessionId session Hget). done.
    + apply update_length.
Qed.

(** X9.  [finishSession] is not idempotent: a second call on the same
    session succeeds again and replaces the end time by the time of
    the second call. *)
Theorem finishSession_twice_overwrites_end_time (repo : MockSessionRepository.t)
    (t1 t2 : Z) (sessionId : string) (session : SessionLog) :
  session_getById repo sessionId = Some session →
  finishSession (finishSession repo t1 sessionId).1 t2 sessionId
  = finishSession repo t2 sessionId
  ∧ s_endTime <$> session_getById
        (finishSession (finishSession repo t1 sessionId).1 t2 sessionId).1
        sessionId
    = Some (Some t2).
Proof.
  intros Hget.
  pose proof (getById_update_same repo sessionId session (finished session t1)
                Hget eq_refl) as Hfirst.
  pose proof (getById_update_same repo sessionId session (finished session t2)
                Hget eq_refl) as Hsecond.
  pose proof (update_update repo (finished session t1) (finished session t2)
                eq_refl) as Hwins.
  unfold finishSession. rewrite Hget. cbn [fst]. rewrite Hfirst. cbn [fst].
  change (finished (finished session t1) t2) with (finished session t2).
  rewrite Hwins, Hsecond. done.
Qed.

End MockSessionsMore.

Section CompletionsMore.
Import Models Js IRepositories RepositoryMethods.
Import SessionService SessionServiceRest MockSessionMethods.
Local Open Scope Z_scope.

Lemma findIndex_app_first {A} (p : A → bool) (l : list A) y :
  find p l = None → p y = true →
  findIndex p (l ++ [y]) = Z.of_nat (length l).
Proof.
  intros Hnone Hy.
  pose proof (find_app_None p l y Hnone) as Hfind. rewrite Hy in Hfind.
  apply find_Some_findIndex in Hfind as (i & -> & Hlook & _ & Hbefore).
  apply find_None_findIndex in Hnone as [_ Hall].
  f_equal. destruct (Nat.lt_trichotomy i (length l)) as [Hlt|[->|Hgt]]; [|done|].
  - rewrite lookup_app_l in Hlook by done.
    rewrite Forall_forall in Hall.
    assert (p y = false) by (apply Hall; eapply list_elem_of_lookup_2, Hlook).
    congruence.
  - apply lookup_lt_Some in Hlook. rewrite length_app in Hlook. simpl in Hlook. lia.
Qed.

(** Two upserts for the same exercise in a row: the second one wins. *)
Lemma upsertCompletion_twice exercises c1 c2 :
  c_exerciseId c1 = c_exerciseId c2 →
  upsertCompletion (upsertCompletion exercises c1) c2
  = upsertCompletion exercises c2.
Proof.
  intros Hid. unfold upsertCompletion. rewrite Hid.
  destruct (find (λ e, String.eqb (c_exerciseId e) (c_exerciseId c2)) exercises)
    as [old|] eqn:Hfind.
  - apply find_Some_findIndex in Hfind as (i & Hidx & Hlook & Hp & Hbefore).
    rewrite Hidx. destruct (Z.leb_spec 0 (Z.of_nat i)); [|lia].
    rewrite Nat2Z.id.
    rewrite (findIndex_insert_first _ _ i old); [|done|done|].
    + destruct (Z.leb_spec 0 (Z.of_nat i)); [|lia].
      rewrite Nat2Z.id. apply list_insert_insert_eq.
    + rewrite Hid. apply String.eqb_refl.
  - pose proof (find_None_findIndex _ _ Hfind) as [Hidx _]. rewrite Hidx. simpl.
    rewrite findIndex_app_first; [|done|].
    + destruct (Z.leb_spec 0 (Z.of_nat (length exercises))); [|lia].
      rewrite Nat2Z.id.
      replace (length exercises) with (length exercises + 0)%nat by lia.
      rewrite insert_app_r. done.
    + rewrite Hid. apply String.eqb_refl.
Qed.

(** X10.  Recording the same exercise twice in a stored session leaves
    the repository exactly as recording it once with the later values
    does: the last write wins and nothing else remembers the first. *)
Theorem markExerciseComplete_last_write_wins (repo : MockSessionRepository.t)
    (sessionId : string) (session : SessionLog) (exerciseId : string)
    (reps1 duration1 reps2 duration2 : option Z) :
  session_getById repo sessionId = Some session →
  markExerciseComplete
    (markExerciseComplete repo sessionId exerciseId reps1 duration1).1
    sessionId exerciseId reps2 duration2
  = markExerciseComplete repo sessionId exerciseId reps2 duration2.
Proof.
  intros Hget.
  set (c1 := mkCompletion exerciseId true reps1 duration1).
  set (c2 := mkCompletion exerciseId true reps2 duration2).
  pose proof (getById_update_same repo sessionId session (withCompletion session c1)
                Hget eq_refl) as Hfirst.
  pose proof (update_update repo (withCompletion session c1)
                (withCompletion session c2) eq_refl) as Hwins.
  unfold markExerciseComplete. rewrite Hget. cbn [fst]. fold c1 c2.
  rewrite Hfirst.
  assert (Hmerge : withCompletion (withCompletion session c1) c2
                   = withCompletion session c2).
  { unfold withCompletion. simpl. f_equal. apply upsertCompletion_twice. done. }
  rewrite Hmerge, Hwins. done.
Qed.

(** X11.  The duration of a session is 0 while it has no end time, and
    otherwise the number of minutes nearest to the elapsed time (a half
    minute goes up): it is off by at most 30 seconds. *)
Theorem calculateSessionDuration_rounds_to_nearest (session : SessionLog) :
  (s_endTime session = None → calculateSessionDuration session = 0)
  ∧ (∀ endMs, s_endTime session = Some endMs →
       let elapsed := endMs - s_startTime session in
       let minutes := calculateSessionDuration session in
       60000 * minutes - 30000 ≤ elapsed < 60000 * minutes + 30000).
Proof.
  unfold calculateSessionDuration, round_minutes. split.
  - intros ->. done.
  - intros endMs ->. simpl.
    pose proof (Z.div_mod (endMs - s_startTime session + 30000) 60000).
    pose proof (Z.mod_pos_bound (endMs - s_startTime session + 30000) 60000).
    lia.
Qed.

(** X12.  The minutes that the history screen shows for a finished
    session are rounded down, the minutes of the service to the nearest:
    the screen never shows more, shows at most one minute less, and
    shows less exactly when the elapsed time is 30 s or more past a
    full minute. *)
Theorem history_minutes_against_service_minutes (session : SessionLog)
    (endMs : Z) :
  s_endTime session = Some endMs →
  let elapsed := endMs - s_startTime session in
  HistoryScreen.formatDuration (s_startTime session) (s_endTime session)
  = (pretty (HistoryScreen.floor_minutes elapsed) ++ " min")%string
  ∧ calculateSessionDuration session - 1 ≤ HistoryScreen.floor_minutes elapsed
  ∧ HistoryScreen.floor_minutes elapsed ≤ calculateSessionDuration session
  ∧ (HistoryScreen.floor_minutes elapsed < calculateSessionDuration session
     ↔ 30000 ≤ elapsed mod 60000).
Proof.
  intros Hend. unfold calculateSessionDuration, round_minutes,
    HistoryScreen.formatDuration, HistoryScreen.floor_minutes.
  rewrite Hend. simpl.
  set (e := endMs - s_startTime session).
  pose proof (Z.div_mod (e + 30000) 60000).
  pose proof (Z.mod_pos_bound (e + 30000) 60000).
  pose proof (Z.div_mod e 60000).
  pose proof (Z.mod_pos_bound e 60000).
  split; [done|]. lia.
Qed.

End CompletionsMore.

Section SessionStoreMore.
Import Models Js IRepositories RepositoryMethods.
Import SessionService SessionServiceRest MockSessionMethods.
Local Open Scope Z_scope.

Local Abbreviation sessions := MockSessionRepository.sessions.
Local Abbreviation nextId := MockSessionRepository.nextId.

Lemma filter_all_kept {A} (q : A → bool) (l : list A) :
  Forall (λ x, q x = true) l → List.filter q l = l.
Proof. induction 1 as [|x l Hx _ IH]; simpl; [done|]. by rewrite Hx, IH. Qed.

Lemma filter_unique_length (l : list SessionLog) id session :
  NoDup (s_id <$> l) →
  find (λ s, String.eqb (s_id s) id) l = Some session →
  S (length (List.filter (λ s, negb (String.eqb (s_id s) id)) l)) = length l.
Proof.
  induction l as [|x l IH]; simpl; [done|].
  intros [Hx Hnd]%NoDup_cons.
  destruct (String.eqb_spec (s_id x) id) as [Hid|Hid]; simpl.
  - intros _. f_equal. f_equal. apply filter_all_kept.
    apply Forall_forall. intros y Hy. apply negb_true_iff, String.eqb_neq.
    intros Heq. apply Hx. apply list_elem_of_fmap. exists y. split; [congruence|done].
  - intros Hfind. f_equal. auto.
Qed.

(** X13.  Deleting a session never fails.  Afterwards the id does not
    resolve and every other id resolves as before; deleting an id that
    is not stored changes nothing, so deleting twice is deleting once;
    and when the stored ids are distinct, deleting a stored id removes
    exactly one session. *)
Theorem deleteSession_removes_the_session (repo : MockSessionRepository.t)
    (sessionId : string) :
  session_getById (deleteSession repo sessionId) sessionId = None
  ∧ (∀ other, other ≠ sessionId →
       session_getById (deleteSession repo sessionId) other
       = session_getById repo other)
  ∧ (session_getById repo sessionId = None → deleteSession repo sessionId = repo)
  ∧ deleteSession (deleteSession repo sessionId) sessionId
    = deleteSession repo sessionId
  ∧ (∀ session,
       NoDup (s_id <$> sessions repo) →
       session_getById repo sessionId = Some session →
       S (length (sessions (deleteSession repo sessionId)))
       = length (sessions repo)).
Proof.
  unfold deleteSession. simpl.
  unfold MockSessionMethods.delete, MockSessionRepository.getById. simpl.
  assert (Habsent : ∀ l : list SessionLog,
            find (λ s, String.eqb (s_id s) sessionId) l = None →
            List.filter (λ s, negb (String.eqb (s_id s) sessionId)) l = l).
  { intros l [_ Hall]%find_None_findIndex. apply filter_all_kept.
    eapply Forall_impl; [exact Hall|]. simpl. intros s ->. done. }
  split_and!.
  - apply find_filter_same.
  - intros other Hne. apply find_filter_other. done.
  - intros Hnone. destruct repo as [l n]. simpl in *. f_equal. auto.
  - f_equal. apply Habsent, find_filter_same.
  - intros session Hnd Hfind. eapply filter_unique_length; done.
Qed.

(** X14.  [getHistory] without a limit and with the limit 0 both return
    every session; a positive limit returns the first [limit] sessions
    of the repository's answer (all of them when there are fewer); a
    negative limit drops that many sessions from the end. *)
Theorem getHistory_limit {SR : Type} `{ISessionRepository SR}
    `{ISessionRepositoryRest SR} (repository : SR) :
  getHistory repository None = session_getAll repository
  ∧ getHistory repository (Some 0) = session_getAll repository
  ∧ (∀ n : nat, (0 < n)%nat →
       getHistory repository (Some (Z.of_nat n))
       = take n (session_getAll repository)
       ∧ length (getHistory repository (Some (Z.of_nat n)))
         = Nat.min n (length (session_getAll repository)))
  ∧ (∀ n : nat, (0 < n)%nat →
       getHistory repository (Some (- Z.of_nat n))
       = take (length (session_getAll repository) - n)
           (session_getAll repository)).
Proof.
  unfold getHistory, slice0, truthy_num. simpl. split_and!; [done | done | |].
  - intros n Hn. destruct (Z.eqb_spec (Z.of_nat n) 0); [lia|]. simpl.
    destruct (Z.ltb_spec (Z.of_nat n) 0); [lia|].
    rewrite Nat2Z.id. split; [done | apply length_take].
  - intros n Hn. destruct (Z.eqb_spec (- Z.of_nat n) 0); [lia|]. simpl.
    destruct (Z.ltb_spec (- Z.of_nat n) 0); [|lia].
    f_equal. lia.
Qed.

Lemma ids_issued_update (repo : MockSessionRepository.t) session' :
  ids_issued repo → ids_issued (session_update repo session').
Proof.
  intros [Hnd Hbelow]. destruct (update_ids repo session') as [Hids Hnext].
  split; [by rewrite Hids|].
  rewrite Forall_forall in *. intros s Hs. rewrite Hnext.
  assert (Hid : s_id s ∈ s_id <$> sessions repo).
  { rewrite <- Hids. apply list_elem_of_fmap. eauto. }
  apply list_elem_of_fmap in Hid as (s0 & Heq & Hs0).
  destruct (Hbelow s0 Hs0) as (k & Hk & Hpretty).
  exists k. split; [done | congruence].
Qed.

(** X15.  The ids of the in-memory session repository stay distinct
    and below the counter: this holds for the empty repository and is
    kept by creating a session, recording a completion, finishing and
    deleting. *)
Theorem session_ids_stay_distinct (repo : MockSessionRepository.t)
    (now : Z) (routineId sessionId exerciseId : string)
    (reps duration : option Z) :
  ids_issued MockSessionRepository.initial
  ∧ (ids_issued repo →
     ids_issued (createSession repo now routineId).1
     ∧ ids_issued
         (markExerciseComplete repo sessionId exerciseId reps duration).1
     ∧ ids_issued (finishSession repo now sessionId).1
     ∧ ids_issued (deleteSession repo sessionId)).
Proof.
  split.
  - split; [apply NoDup_nil_2 | constructor].
  - intros Hinv. pose proof Hinv as [Hnd Hbelow]. split_and!.
    + unfold createSession. simpl. split; simpl.
      * rewrite fmap_app. apply NoDup_app. split_and!;
          [done | | apply NoDup_singleton].
        intros id (s & -> & Hs)%list_elem_of_fmap Hnew. simpl in Hnew.
        apply list_elem_of_singleton in Hnew.
        rewrite Forall_forall in Hbelow. destruct (Hbelow s Hs) as (k & Hk & Heq).
        rewrite Heq in Hnew. apply (inj pretty) in Hnew. lia.
      * apply Forall_app. split.
        -- eapply Forall_impl; [exact Hbelow|]. simpl.
           intros s (k & Hk & ->). exists k. split; [lia | done].
        -- constructor; [|constructor]. exists (nextId repo). simpl. split; [lia|done].
    + unfold markExerciseComplete.
      destruct (session_getById repo sessionId); [|done].
      apply ids_issued_update. done.
    + unfold finishSession.
      destruct (session_getById repo sessionId); [|done].
      apply ids_issued_update. done.
    + unfold deleteSession. simpl. split; simpl.
      * apply NoDup_fmap_filter. done.
      * rewrite Forall_forall in *. intros s Hs. apply Hbelow.
        apply list_elem_of_In in Hs. apply filter_In in Hs as [Hs _].
        apply list_elem_of_In. done.
Qed.

Lemma createSession_lookup (repo : MockSessionRepository.t)
    (now : Z) (routineId : string) :
  ids_issued repo →
  session_getById (createSession repo now routineId).1
    (createSession repo now routineId).2
  = Some {| s_id := (createSession repo now routineId).2;
            s_routineId := routineId;
            s_startTime := now; s_endTime := None;
            s_exercises := []; s_completed := false |}.
Proof.
  intros Hinv. pose proof (ids_issued_fresh repo Hinv) as Hfresh.
  unfold createSession. simpl in *.
  unfold MockSessionRepository.getById in *. simpl.
  rewrite find_app_None by done. simpl. rewrite String.eqb_refl. done.
Qed.

(** X16.  In a repository whose ids were handed out by [save], the id
    returned by [createSession] was not in use, resolves afterwards to
    the new session (the given routine, start time now, no end time, no
    completions, not completed), and every session stored before still
    resolves under its id. *)
Theorem createSession_hands_out_a_fresh_id (repo : MockSessionRepository.t)
    (now : Z) (routineId : string) :
  ids_issued repo →
  let created := createSession repo now routineId in
  session_getById repo created.2 = None
  ∧ session_getById created.1 created.2
    = Some {| s_id := created.2; s_routineId := routineId;
              s_startTime := now; s_endTime := None;
              s_exercises := []; s_completed := false |}
  ∧ (∀ other session,
       session_getById repo other = Some session →
       session_getById created.1 other = Some session)
  ∧ length (sessions created.1) = S (length (sessions repo)).
Proof.
  intros Hinv. pose proof (ids_issued_fresh repo Hinv) as Hfresh.
  unfold createSession. simpl in *.
  unfold MockSessionRepository.getById in *. simpl. split_and!.
  - done.
  - rewrite find_app_None by done. simpl. rewrite String.eqb_refl. done.
  - intros other session Hget. apply find_app_Some. done.
  - rewrite length_app. simpl. lia.
Qed.

Lemma getById_elem_of (repo : MockSessionRepository.t) id session :
  session_getById repo id = Some session → session ∈ sessions repo.
Proof.
  simpl. unfold MockSessionRepository.getById.
  intros (i & _ & Hlook & _)%find_Some_findIndex.
  eapply list_elem_of_lookup_2, Hlook.
Qed.

Lemma hasCompletedToday_spec (repo : MockSessionRepository.t) today :
  hasCompletedToday repo today = true
  ↔ ∃ s, s ∈ sessions repo ∧ Dates.isoDate (s_startTime s) = today
         ∧ s_completed s = true.
Proof.
  unfold hasCompletedToday. simpl. unfold MockSessionMethods.getByDate.
  rewrite existsb_exists. split.
  - intros (s & [Hs Hday]%filter_In & Hc). exists s.
    rewrite list_elem_of_In. split_and!; [done | lia | done].
  - intros (s & Hs & Hday & Hc). exists s. split; [|done].
    apply filter_In. rewrite <- list_elem_of_In. split; [done | lia].
Qed.

(** X17.  A session created at the instant [now] and then finished, at
    whatever later time, makes [hasCompletedToday] true for the date of
    [now]; creating it alone does not, unless a completed session of
    that date was there before. *)
Theorem hasCompletedToday_after_finish (repo : MockSessionRepository.t)
    (now later : Z) (routineId : string) :
  ids_issued repo →
  let created := createSession repo now routineId in
  hasCompletedToday (finishSession created.1 later created.2).1
    (Dates.isoDate now) = true
  ∧ hasCompletedToday created.1 (Dates.isoDate now)
    = hasCompletedToday repo (Dates.isoDate now).
Proof.
  intros Hinv created.
  pose proof (createSession_lookup repo now routineId Hinv) as Hnew.
  fold created in Hnew.
  split.
  - apply hasCompletedToday_spec.
    set (new := {| s_id := created.2; s_routineId := routineId;
                   s_startTime := now; s_endTime := None;
                   s_exercises := []; s_completed := false |}) in *.
    exists (finished new later). split_and!; [|done|done].
    apply (getById_elem_of _ created.2).
    unfold finishSession. rewrite Hnew. cbn [fst].
    apply (getById_update_same _ _ new); done.
  - subst created. unfold hasCompletedToday, createSession. simpl.
    unfold MockSessionMethods.getByDate. simpl.
    rewrite List.filter_app, existsb_app. simpl.
    destruct (Dates.isoDate now =? Dates.isoDate now); simpl;
      rewrite orb_false_r; done.
Qed.

End SessionStoreMore.

(* ===================================================================== *)
(** * The handlers of the guided workout *)
(* ===================================================================== *)

Section WorkoutHandlers.
Import Models Js IRepositories RepositoryMethods.
Import SessionService SessionServiceRest SessionScreenHandlers.
Local Open Scope Z_scope.

Context {SR : Type} `{ISessionRepository SR} `{ISessionRepositoryRest SR}.

Lemma hasNext_spec (w : Workout) :
  hasNext w = true ↔ (S (w_currentIndex w) < length (w_exercises w))%nat.
Proof. unfold hasNext. rewrite Z.ltb_lt. lia. Qed.

(** X18.  While the current index points at an exercise it keeps doing
    so: [handleSkip] and [handleComplete] move it by at most one step
    and never past the last exercise, and they change neither the list
    of exercises nor the session id.  [handleSkip] never completes the
    workout. *)
Theorem handlers_keep_the_index_in_range (sessionRepository : SR) (now : Z)
    (w : Workout) :
  (w_currentIndex w < length (w_exercises w))%nat →
  let skipped := handleSkip w in
  let completed := (handleComplete sessionRepository now w).2 in
  (w_currentIndex skipped < length (w_exercises skipped))%nat
  ∧ (w_currentIndex w ≤ w_currentIndex skipped ≤ S (w_currentIndex w))%nat
  ∧ w_exercises skipped = w_exercises w
  ∧ w_sessionId skipped = w_sessionId w
  ∧ w_isComplete skipped = w_isComplete w
  ∧ (w_currentIndex completed < length (w_exercises completed))%nat
  ∧ (w_currentIndex w ≤ w_currentIndex completed ≤ S (w_currentIndex w))%nat
  ∧ w_exercises completed = w_exercises w
  ∧ w_sessionId completed = w_sessionId w.
Proof.
  intros Hrange. simpl. unfold handleSkip, handleComplete.
  pose proof (hasNext_spec w) as Hnext.
  destruct (negb (truthy_str (w_sessionId w)));
    destruct (w_exercises w !! w_currentIndex w);
    try destruct (markExerciseComplete _ _ _ _ _) as [r1 [[]|m1]];
    try destruct (finishSession _ _ _) as [r2 [[]|m2]];
    destruct (hasNext w); simpl;
    repeat split; try lia; try (apply Hnext; done).
Qed.

(** X19.  A workout without a current exercise (a routine none of
    whose exercises resolves) or without a session id cannot be
    completed from the screen: however often Complete is pressed,
    nothing is written to the repository and the screen does not
    change.  Skip does nothing when there is no current exercise; it
    does not read the session id, so that with a next exercise it
    advances also when there is no session id. *)
Theorem handleComplete_without_exercise_or_session (sessionRepository : SR)
    (now : Z) (w : Workout) (n : nat) :
  (w_exercises w !! w_currentIndex w = None ∨ w_sessionId w = None →
   completeTimes n sessionRepository now w = (sessionRepository, w))
  ∧ (w_exercises w !! w_currentIndex w = None → handleSkip w = w)
  ∧ ((S (w_currentIndex w) < length (w_exercises w))%nat →
     handleSkip w = advance w).
Proof.
  split; [|split].
  - intros Hmissing.
    assert (Hone : ∀ t, handleComplete sessionRepository t w
                        = (sessionRepository, w)).
    { intros t. unfold handleComplete.
      destruct Hmissing as [-> | ->]; simpl; [|done].
      destruct (negb (truthy_str (w_sessionId w))); done. }
    revert now. induction n as [|n IH]; intros t; simpl; [done|].
    rewrite Hone. apply IH.
  - intros Hcur. unfold handleSkip. pose proof (hasNext_spec w) as Hnext.
    apply lookup_ge_None in Hcur.
    destruct (hasNext w); [|done]. destruct Hnext as [Hnext _].
    specialize (Hnext eq_refl). lia.
  - intros Hlt. unfold handleSkip. pose proof (hasNext_spec w) as Hnext.
    destruct (hasNext w); [done|]. destruct Hnext as [_ Hnext].
    specialize (Hnext Hlt). discriminate Hnext.
Qed.

End WorkoutHandlers.

Section WholeWorkout.
Import Models Js IRepositories RepositoryMethods.
Import SessionService SessionServiceRest SessionScreenHandlers.
Local Open Scope Z_scope.

Lemma truthy_str_nonempty (sid : string) :
  sid ≠ EmptyString → truthy_str (Some sid) = true.
Proof. destruct sid; done. Qed.

(** One press of Complete on a stored session that holds the records
    of the exercises before the current one. *)
Lemma handleComplete_step (exs : list Exercise) (sid : string)
    (i : nat) (ex : Exercise) (repo : MockSessionRepository.t) (now : Z)
    (w : Workout) (session : SessionLog) :
  sid ≠ EmptyString → NoDup (ex_id <$> exs) →
  exs !! i = Some ex →
  w_exercises w = exs → w_currentIndex w = i → w_sessionId w = Some sid →
  session_getById repo sid = Some session →
  s_exercises session = completionOf <$> take i exs →
  let recorded :=
    {| s_id := s_id session;
       s_routineId := s_routineId session;
       s_startTime := s_startTime session;
       s_endTime := s_endTime session;
       s_exercises := completionOf <$> take (S i) exs;
       s_completed := s_completed session |} in
  handleComplete repo now w
  = if hasNext w then (session_update repo recorded, advance w)
    else (session_update (session_update repo recorded) (finished recorded now),
          completeWorkout w).
Proof.
  intros Hsid Hnd Hex Hexs Hidx Hw Hget Hrecs recorded.
  assert (Hfresh : c_exerciseId (completionOf ex)
                   ∉ c_exerciseId <$> s_exercises session).
  { rewrite Hrecs, <- list_fmap_compose.
    intros (e & Heq & He)%list_elem_of_fmap.
    apply elem_of_take in He as (j & Hj & Hji). simpl in Heq.
    assert (i = j); [|lia].
    apply (NoDup_lookup _ i j (ex_id ex) Hnd).
    - rewrite list_lookup_fmap, Hex. done.
    - rewrite list_lookup_fmap, Hj. simpl. congruence. }
  assert (Hrecorded : withCompletion session (completionOf ex) = recorded).
  { unfold withCompletion, recorded. f_equal.
    rewrite upsertCompletion_absent by done.
    rewrite Hrecs, (take_S_r _ _ ex), fmap_app by done. done. }
  pose proof (getById_update_same repo sid session recorded Hget eq_refl)
    as Hstored.
  unfold handleComplete.
  rewrite Hw, (truthy_str_nonempty sid Hsid), Hexs, Hidx, Hex. simpl negb.
  cbn iota. unfold markExerciseComplete. simpl default. rewrite Hget.
  fold (completionOf ex). rewrite Hrecorded.
  destruct (hasNext w); [done|].
  unfold finishSession. rewrite Hstored. done.
Qed.

Lemma completeTimes_S (n : nat) (repo : MockSessionRepository.t) now w :
  completeTimes (S n) repo now w
  = completeTimes n (handleComplete repo now w).1 (now + 1)
      (handleComplete repo now w).2.
Proof. simpl. destruct (handleComplete repo now w). done. Qed.

(** Pressing Complete on each of the remaining [k + 1] exercises. *)
Lemma completeTimes_remaining (exs : list Exercise) (sid : string) :
  sid ≠ EmptyString → NoDup (ex_id <$> exs) →
  ∀ (k i : nat) (repo : MockSessionRepository.t) (now : Z) (w : Workout)
    (session : SessionLog),
    (i + S k = length exs)%nat →
    w_exercises w = exs → w_currentIndex w = i → w_sessionId w = Some sid →
    session_getById repo sid = Some session →
    s_exercises session = completionOf <$> take i exs →
    w_isComplete (completeTimes (S k) repo now w).2 = true
    ∧ session_getById (completeTimes (S k) repo now w).1 sid
      = Some {| s_id := s_id session;
                s_routineId := s_routineId session;
                s_startTime := s_startTime session;
                s_endTime := Some (now + Z.of_nat k);
                s_exercises := completionOf <$> exs;
                s_completed := true |}.
Proof.
  intros Hsid Hnd k. induction k as [|k IH];
    intros i repo now w session Hlen Hexs Hidx Hw Hget Hrecs.
  - assert (Hlt : (i < length exs)%nat) by lia.
    destruct (lookup_lt_is_Some_2 exs i Hlt) as [ex Hex].
    rewrite completeTimes_S.
    rewrite (handleComplete_step exs sid i ex repo now w session) by done.
    assert (Hlast : hasNext w = false).
    { apply not_true_iff_false. rewrite hasNext_spec, Hexs, Hidx. lia. }
    rewrite Hlast. cbn [fst snd completeTimes]. split; [done|].
    match goal with
    | |- context [session_update repo ?r] => set (recorded := r)
    end.
    rewrite (getById_update_same (session_update repo recorded) sid recorded
               (finished recorded now)); [| |reflexivity].
    + unfold finished, recorded. simpl. rewrite Z.add_0_r.
      replace (S i) with (length exs) by lia. rewrite take_ge by lia. done.
    + apply (getById_update_same repo sid session); done.
  - assert (Hlt : (i < length exs)%nat) by lia.
    destruct (lookup_lt_is_Some_2 exs i Hlt) as [ex Hex].
    rewrite completeTimes_S.
    rewrite (handleComplete_step exs sid i ex repo now w session) by done.
    assert (Hmore : hasNext w = true).
    { rewrite hasNext_spec, Hexs, Hidx. lia. }
    rewrite Hmore. cbn [fst snd].
    match goal with
    | |- context [session_update repo ?r] => set (recorded := r)
    end.
    assert (Hstored : session_getById (session_update repo recorded) sid
                      = Some recorded).
    { apply (getById_update_same repo sid session); done. }
    destruct (IH (S i) (session_update repo recorded) (now + 1) (advance w)
                recorded) as (Hcomplete & Hfinal).
    + lia.
    + done.
    + simpl. rewrite Hidx. done.
    + done.
    + done.
    + done.
    + split; [exact Hcomplete|]. rewrite Hfinal. unfold recorded. simpl.
      do 3 f_equal. lia.
Qed.

(** X20.  A whole workout: in a session that is stored and has no
    record yet, pressing Complete once on each exercise of a list
    without repeated exercise ids ends with the completion screen, and
    the stored session is completed, ended at the time of the last
    press, and holds one record per exercise, in the order of the
    routine. *)
Theorem completing_every_exercise_finishes_the_session
    (repo : MockSessionRepository.t) (now : Z) (exs : list Exercise)
    (sid : string) (session : SessionLog) :
  sid ≠ EmptyString → exs ≠ [] → NoDup (ex_id <$> exs) →
  session_getById repo sid = Some session →
  s_exercises session = [] →
  let done := completeTimes (length exs) repo now (loaded exs sid) in
  w_isComplete done.2 = true
  ∧ session_getById done.1 sid
    = Some {| s_id := s_id session;
              s_routineId := s_routineId session;
              s_startTime := s_startTime session;
              s_endTime := Some (now + Z.of_nat (length exs) - 1);
              s_exercises := completionOf <$> exs;
              s_completed := true |}.
Proof.
  intros Hsid Hne Hnd Hget Hempty.
  destruct exs as [|e0 rest] eqn:Hexs; [done|]. rewrite <- Hexs in *.
  assert (Hlen : length exs = S (length rest)) by (rewrite Hexs; done).
  rewrite Hlen.
  destruct (completeTimes_remaining exs sid Hsid Hnd (length rest) 0 repo now
              (loaded exs sid) session) as (Hcomplete & Hfinal);
    try done; try lia.
  cbv zeta. split; [exact Hcomplete|]. rewrite Hfinal. do 3 f_equal. lia.
Qed.

End WholeWorkout.

(* ===================================================================== *)
(** * Further properties of the routine and exercise services *)
(* ===================================================================== *)

Section ResolveMore.
Import Models Js IRepositories RepositoryMethods.
Import RoutineService RoutineServiceRest ExerciseServiceRest.
Local Open Scope Z_scope.

Context {R E : Type} `{IRoutineRepository R} `{IRoutineRepositoryRest R}
        `{IExerciseRepository E}.

Lemma resolveExercises_omap (exerciseRepository : E) ids :
  resolveExercises exerciseRepository ids
  = omap (exercise_getById exerciseRepository) ids.
Proof.
  induction ids as [|id ids IH]; simpl; [done|].
  destruct (exercise_getById exerciseRepository id); simpl; by rewrite IH.
Qed.

Lemma resolveExercises_length (exerciseRepository : E) ids :
  (length (resolveExercises exerciseRepository ids) ≤ length ids)%nat.
Proof.
  induction ids as [|id ids IH]; simpl; [done|].
  destruct (exercise_getById exerciseRepository id); simpl; lia.
Qed.

Lemma resolveExercises_all_known (exerciseRepository : E) ids :
  all_known exerciseRepository ids →
  length (resolveExercises exerciseRepository ids) = length ids.
Proof.
  induction 1 as [|id ids [e He] _ IH]; simpl; [done|]. rewrite He. simpl. lia.
Qed.

(** X21.  Resolving the exercises of a routine keeps the ids that
    resolve, in their order, and drops the others without an error:
    [RoutineService.getRoutineExercises] of a stored routine and
    [ExerciseService.getExercisesForRoutine] of its ids return the same
    list, which is the list of the lookups that succeed. *)
Theorem stale_exercise_ids_are_skipped (routineRepository : R)
    (exerciseRepository : E) (routineId : string) (routine : Routine) :
  routine_getById routineRepository routineId = Some routine →
  getRoutineExercises routineRepository exerciseRepository routineId
  = Ok (getExercisesForRoutine exerciseRepository (r_exerciseIds routine))
  ∧ getExercisesForRoutine exerciseRepository (r_exerciseIds routine)
    = omap (exercise_getById exerciseRepository) (r_exerciseIds routine)
  ∧ (∀ known1 stale known2 e1 e2,
       r_exerciseIds routine = [known1; stale; known2] →
       exercise_getById exerciseRepository known1 = Some e1 →
       exercise_getById exerciseRepository stale = None →
       exercise_getById exerciseRepository known2 = Some e2 →
       getRoutineExercises routineRepository exerciseRepository routineId
       = Ok [e1; e2]).
Proof.
  intros Hget. unfold getRoutineExercises. rewrite Hget.
  assert (Hsame : ∀ ids, getExercisesForRoutine exerciseRepository ids
                         = resolveExercises exerciseRepository ids).
  { induction ids as [|id ids IH]; simpl; [done|].
    destruct (exercise_getById exerciseRepository id); by rewrite IH. }
  split_and!.
  - f_equal.
  - etransitivity; [apply Hsame | apply resolveExercises_omap].
  - intros known1 stale known2 e1 e2 -> Hk1 Hstale Hk2. simpl.
    rewrite Hk1, Hstale, Hk2. done.
Qed.

(** X22.  The exercise count of a routine counts its ids, resolved or
    not: it is 0 for an unknown routine (whose resolution fails), never
    smaller than the number of exercises the routine resolves to, and
    equal to it when every id resolves. *)
Theorem exercise_count_against_resolved_exercises (routineRepository : R)
    (exerciseRepository : E) (routineId : string) :
  (routine_getById routineRepository routineId = None →
   getRoutineExerciseCount routineRepository routineId = 0
   ∧ getRoutineExercises routineRepository exerciseRepository routineId
     = Err "Routine not found")
  ∧ (∀ routine,
       routine_getById routineRepository routineId = Some routine →
       ∃ exercises,
         getRoutineExercises routineRepository exerciseRepository routineId
         = Ok exercises
         ∧ Z.of_nat (length exercises)
           ≤ getRoutineExerciseCount routineRepository routineId
         ∧ (all_known exerciseRepository (r_exerciseIds routine) →
            Z.of_nat (length exercises)
            = getRoutineExerciseCount routineRepository routineId)).
Proof.
  unfold getRoutineExerciseCount, getRoutineExercises. split.
  - intros ->. done.
  - intros routine ->. eexists. split; [done|]. split.
    + pose proof (resolveExercises_length exerciseRepository
                    (r_exerciseIds routine)). lia.
    + intros Hknown. rewrite resolveExercises_all_known by done. done.
Qed.

(** X23.  [getExerciseById] fails with "Invalid exercise ID" exactly
    for an id that is empty or white space only; for any other id it
    returns what the repository finds, absent included, without an
    error. *)
Theorem getExerciseById_rejects_blank_ids (exerciseRepository : E)
    (id : string) :
  (all_white id = true →
   getExerciseById exerciseRepository id = Err "Invalid exercise ID")
  ∧ (all_white id = false →
     getExerciseById exerciseRepository id
     = Ok (exercise_getById exerciseRepository id)).
Proof.
  unfold getExerciseById. rewrite blank_test. split; intros ->; done.
Qed.

End ResolveMore.

Section MockRoutinesMore.
Import Models Js IRepositories RepositoryMethods.
Import RoutineService RoutineServiceRest MockRoutineMethods.
Local Open Scope Z_scope.

Local Abbreviation routines := MockRoutineRepository.routines.
Local Abbreviation nextId := MockRoutineRepository.nextId.

Context {E : Type} `{IExerciseRepository E}.

Lemma routine_getById_id (repo : MockRoutineRepository.t) id routine :
  routine_getById repo id = Some routine → r_id routine = id.
Proof.
  simpl. unfold MockRoutineRepository.getById.
  intros (i & _ & _ & Hp & _)%find_Some_findIndex.
  by apply String.eqb_eq in Hp.
Qed.

Lemma routine_update_same (repo : MockRoutineRepository.t) id routine routine' :
  routine_getById repo id = Some routine →
  r_id routine' = r_id routine →
  routine_getById (routine_update repo routine') id = Some routine'.
Proof.
  intros Hget Hid. pose proof (routine_getById_id repo id routine Hget) as Hrid.
  simpl in *. unfold MockRoutineRepository.getById, update in *.
  rewrite Hid, Hrid.
  apply find_Some_findIndex in Hget as (i & Hidx & Hlook & Hp & Hbefore).
  rewrite Hidx. destruct (Z.leb_spec 0 (Z.of_nat i)); [|lia].
  simpl. rewrite Nat2Z.id.
  apply (find_insert_first _ _ i routine); [done | done |].
  apply String.eqb_eq. congruence.
Qed.

Lemma routine_update_other (repo : MockRoutineRepository.t) routine' other :
  other ≠ r_id routine' →
  routine_getById (routine_update repo routine') other
  = routine_getById repo other.
Proof.
  intros Hne. simpl. unfold MockRoutineRepository.getById, update.
  destruct (find (λ r, String.eqb (r_id r) (r_id routine')) (routines repo))
    as [x|] eqn:Hfind.
  - apply find_Some_findIndex in Hfind as (i & Hidx & Hlook & Hp & _).
    rewrite Hidx. destruct (Z.leb_spec 0 (Z.of_nat i)); [|lia].
    simpl. rewrite Nat2Z.id. apply String.eqb_eq in Hp.
    apply (find_insert_other _ _ i x); [done | |].
    + apply String.eqb_neq. congruence.
    + apply String.eqb_neq. congruence.
  - apply find_None_findIndex in Hfind as [-> _]. done.
Qed.

(** X24.  [updateRoutineExercises] fails with "Routine not found" for
    an unknown routine and with the error that names the first id that
    does not resolve otherwise, and then stores nothing.  When every id
    resolves it replaces the ids of the routine and nothing else of it.
    Unlike creation it accepts the empty list, and unlike deletion it
    does not protect the morning and evening routines. *)
Theorem updateRoutineExercises_outcomes (repo : MockRoutineRepository.t)
    (exerciseRepository : E) (routineId : string) (exerciseIds : list string) :
  (routine_getById repo routineId = None →
   updateRoutineExercises repo exerciseRepository routineId exerciseIds
   = (repo, Err "Routine not found"))
  ∧ (∀ routine known id rest,
       routine_getById repo routineId = Some routine →
       exerciseIds = known ++ id :: rest →
       all_known exerciseRepository known →
       exercise_getById exerciseRepository id = None →
       updateRoutineExercises repo exerciseRepository routineId exerciseIds
       = (repo, Err ("Exercise with ID " ++ id ++ " not found")%string))
  ∧ (∀ routine,
       routine_getById repo routineId = Some routine →
       all_known exerciseRepository exerciseIds →
       let updated :=
         updateRoutineExercises repo exerciseRepository routineId exerciseIds in
       updated.2 = Ok tt
       ∧ routine_getById updated.1 routineId
         = Some {| r_id := r_id routine;
                   r_name := r_name routine;
                   r_type := r_type routine;
                   r_exerciseIds := exerciseIds;
                   r_estimatedDuration := r_estimatedDuration routine |}
       ∧ ∀ other, other ≠ routineId →
           routine_getById updated.1 other = routine_getById repo other).
Proof.
  unfold updateRoutineExercises. split_and!.
  - intros ->. done.
  - intros routine known id rest -> -> Hknown Hid.
    rewrite firstUnknownId_found by done. done.
  - intros routine Hget Hknown. rewrite Hget.
    rewrite firstUnknownId_none by done. cbn [fst snd]. split_and!.
    + done.
    + apply (routine_update_same repo routineId routine); done.
    + intros other Hne. apply routine_update_other. simpl.
      rewrite (routine_getById_id repo routineId routine Hget). done.
Qed.

Lemma routine_ids_fresh (repo : MockRoutineRepository.t) :
  ids_issued repo → routine_getById repo (pretty (nextId repo)) = None.
Proof.
  intros [_ Hbelow]. simpl. apply find_Forall_false.
  eapply Forall_impl; [exact Hbelow|]. simpl.
  intros r (k & Hk & ->). apply String.eqb_neq.
  intros Heq. apply (inj pretty) in Heq. lia.
Qed.

Lemma createRoutine_succeeds (repo : MockRoutineRepository.t)
    (exerciseRepository : E) title exerciseIds :
  all_white title = false → exerciseIds ≠ [] →
  all_known exerciseRepository exerciseIds →
  createRoutine repo exerciseRepository title exerciseIds
  = (routine_save repo (newRoutine title exerciseIds), Ok tt).
Proof.
  intros Htitle Hne Hknown. unfold createRoutine.
  rewrite blank_test, Htitle.
  destruct exerciseIds as [|id0 ids]; [done|]. simpl length.
  destruct (Z.eqb_spec (Z.of_nat (S (length ids))) 0); [lia|].
  rewrite firstUnknownId_none by done. done.
Qed.

Lemma createRoutine_lookup (repo : MockRoutineRepository.t)
    (exerciseRepository : E) title exerciseIds :
  ids_issued repo →
  all_white title = false → exerciseIds ≠ [] →
  all_known exerciseRepository exerciseIds →
  routine_getById (createRoutine repo exerciseRepository title exerciseIds).1
    (pretty (nextId repo))
  = Some {| r_id := pretty (nextId repo); r_name := title; r_type := custom;
            r_exerciseIds := exerciseIds; r_estimatedDuration := 0 |}.
Proof.
  intros Hinv Htitle Hne Hknown.
  rewrite createRoutine_succeeds by done. cbn [fst].
  pose proof (routine_ids_fresh repo Hinv) as Hfresh.
  simpl in *. unfold MockRoutineRepository.getById in *. simpl.
  rewrite find_app_None by done. simpl.
  unfold MockRoutineRepository.String_of. rewrite String.eqb_refl. done.
Qed.

(** X25.  A routine that was created can be started: the routine is
    stored under the next id of the repository, with kind [custom], and
    [getRoutineExercises] of this id returns one exercise per given id,
    in the given order; the routines stored before still resolve. *)
Theorem created_routine_resolves (repo : MockRoutineRepository.t)
    (exerciseRepository : E) (title : string) (exerciseIds : list string) :
  ids_issued repo →
  all_white title = false → exerciseIds ≠ [] →
  all_known exerciseRepository exerciseIds →
  let created := (createRoutine repo exerciseRepository title exerciseIds).1 in
  let newId := pretty (nextId repo) in
  routine_getById repo newId = None
  ∧ routine_getById created newId
    = Some {| r_id := newId; r_name := title; r_type := custom;
              r_exerciseIds := exerciseIds; r_estimatedDuration := 0 |}
  ∧ (∃ exercises,
       getRoutineExercises created exerciseRepository newId = Ok exercises
       ∧ length exercises = length exerciseIds
       ∧ Forall2 (λ id e, exercise_getById exerciseRepository id = Some e)
           exerciseIds exercises)
  ∧ (∀ other routine,
       routine_getById repo other = Some routine →
       routine_getById created other = Some routine)
  ∧ ids_issued created.
Proof.
  intros Hinv Htitle Hne Hknown created newId. subst created.
  rewrite createRoutine_succeeds by done. cbn [fst].
  pose proof (routine_ids_fresh repo Hinv) as Hfresh.
  assert (Hnew : routine_getById (routine_save repo (newRoutine title exerciseIds))
                   newId
                 = Some {| r_id := newId; r_name := title; r_type := custom;
                           r_exerciseIds := exerciseIds;
                           r_estimatedDuration := 0 |}).
  { simpl in *. unfold MockRoutineRepository.getById in *. simpl.
    rewrite find_app_None by done. simpl. unfold newId.
    unfold MockRoutineRepository.String_of. rewrite String.eqb_refl. done. }
  split_and!.
  - done.
  - done.
  - unfold getRoutineExercises. rewrite Hnew. simpl r_exerciseIds.
    eexists. split; [done|]. split.
    + apply resolveExercises_all_known. done.
    + clear -Hknown. induction Hknown as [|id ids [e He] _ IH]; simpl;
        [constructor|]. rewrite He. constructor; done.
  - intros other routine Hget. simpl in *.
    unfold MockRoutineRepository.getById in *. simpl.
    apply find_app_Some. done.
  - destruct Hinv as [Hnd Hbelow]. split; simpl.
    + rewrite fmap_app. apply NoDup_app. split_and!;
        [done | | apply NoDup_singleton].
      intros id (r & -> & Hr)%list_elem_of_fmap Hin. simpl in Hin.
      apply list_elem_of_singleton in Hin.
      rewrite Forall_forall in Hbelow. destruct (Hbelow r Hr) as (k & Hk & Heq).
      rewrite Heq in Hin. apply (inj pretty) in Hin. lia.
    + apply Forall_app. split.
      * eapply Forall_impl; [exact Hbelow|]. simpl.
        intros r (k & Hk & ->). exists k. split; [lia | done].
      * constructor; [|constructor]. exists (nextId repo). simpl.
        split; [lia | done].
Qed.

(** X26.  Creating a routine and deleting it again restores the list
    of routines; only the id counter has moved on, so the id is not
    handed out a second time. *)
Theorem create_then_delete_restores_the_routines
    (repo : MockRoutineRepository.t) (exerciseRepository : E)
    (title : string) (exerciseIds : list string) :
  ids_issued repo →
  all_white title = false → exerciseIds ≠ [] →
  all_known exerciseRepository exerciseIds →
  let created := (createRoutine repo exerciseRepository title exerciseIds).1 in
  deleteRoutine created (pretty (nextId repo))
  = ({| MockRoutineRepository.routines := routines repo;
        MockRoutineRepository.nextId := nextId repo + 1 |}, Ok tt).
Proof.
  intros Hinv Htitle Hne Hknown created.
  pose proof (routine_ids_fresh repo Hinv) as Hfresh.
  pose proof (createRoutine_lookup repo exerciseRepository title exerciseIds
                Hinv Htitle Hne Hknown) as Hnew.
  fold created in Hnew. unfold deleteRoutine. rewrite Hnew. simpl r_type. cbv iota.
  f_equal. subst created. rewrite createRoutine_succeeds by done. simpl.
  unfold MockRoutineRepository.delete. simpl. f_equal.
  rewrite List.filter_app. simpl.
  unfold MockRoutineRepository.String_of. rewrite String.eqb_refl. simpl.
  rewrite app_nil_r. apply filter_all_kept.
  simpl in Hfresh. unfold MockRoutineRepository.getById in Hfresh.
  apply find_None_findIndex in Hfresh as [_ Hall].
  eapply Forall_impl; [exact Hall|]. simpl. intros r ->. done.
Qed.

(** X27.  [getRoutineByType] returns a stored routine of the kind
    asked for, the first one in the order of insertion, and nothing
    when no routine has this kind; a text that is none of the three
    kinds finds nothing. *)
Theorem getRoutineByType_returns_that_kind (repo : MockRoutineRepository.t)
    (type : string) :
  (∀ routine, getRoutineByType repo type = Some routine →
     routine ∈ routines repo ∧ typeText (r_type routine) = type)
  ∧ (getRoutineByType repo type = None
     ↔ ∀ routine, routine ∈ routines repo → typeText (r_type routine) ≠ type)
  ∧ (type ≠ "morning"%string → type ≠ "evening"%string →
     type ≠ "custom"%string → getRoutineByType repo type = None).
Proof.
  unfold getRoutineByType. simpl. unfold getByType.
  assert (Hnone : find (λ r, String.eqb (typeText (r_type r)) type) (routines repo)
                  = None
                  ↔ ∀ routine, routine ∈ routines repo →
                               typeText (r_type routine) ≠ type).
  { split.
    - intros [_ Hall]%find_None_findIndex routine Hin.
      rewrite Forall_forall in Hall. apply String.eqb_neq, Hall, Hin.
    - intros Hall. apply find_Forall_false, Forall_forall.
      intros r Hr. apply String.eqb_neq. auto. }
  split_and!.
  - intros routine (i & _ & Hlook & Hp & _)%find_Some_findIndex. split.
    + eapply list_elem_of_lookup_2, Hlook.
    + by apply String.eqb_eq.
  - exact Hnone.
  - intros Hm He Hc. apply Hnone. intros routine _.
    destruct (r_type routine); simpl; congruence.
Qed.

End MockRoutinesMore.

Section EstimateMore.
Import Models Js ExerciseService.
Local Open Scope Z_scope.

Lemma addExercise_acc acc e : addExercise acc e = acc + addExercise 0 e.
Proof.
  unfold addExercise.
  destruct (truthy_num (ex_duration e)); [lia|].
  destruct (truthy_num (ex_reps e)); lia.
Qed.

Lemma fold_addExercise_Permutation (l1 l2 : list Exercise) :
  l1 ≡ₚ l2 → ∀ acc, fold_left addExercise l1 acc = fold_left addExercise l2 acc.
Proof.
  induction 1 as [|x l1 l2 _ IH|x y l|l1 l2 l3 _ IH1 _ IH2]; intros acc; simpl.
  - done.
  - apply IH.
  - f_equal. rewrite (addExercise_acc (addExercise acc y) x),
      (addExercise_acc (addExercise acc x) y),
      (addExercise_acc acc x), (addExercise_acc acc y). lia.
  - by rewrite IH1, IH2.
Qed.

Lemma fold_addExercise_app l e acc :
  fold_left addExercise (l ++ [e]) acc
  = fold_left addExercise l acc + addExercise 0 e.
Proof. rewrite fold_left_app. simpl. apply addExercise_acc. Qed.

Lemma fold_addExercise_nonneg l :
  Forall (λ e, 0 ≤ addExercise 0 e) l →
  ∀ acc, acc ≤ fold_left addExercise l acc.
Proof.
  induction 1 as [|e l He _ IH]; intros acc; simpl; [lia|].
  etransitivity; [|apply IH]. rewrite addExercise_acc. lia.
Qed.

Lemma ceil_div_60_mono n m : n ≤ m → ceil_div n 60 ≤ ceil_div m 60.
Proof.
  intros Hnm. unfold ceil_div.
  pose proof (Z.div_le_mono (- m) (- n) 60 ltac:(lia) ltac:(lia)). lia.
Qed.

(** X28.  The estimate does not depend on the order of the exercises. *)
Theorem estimate_ignores_the_order (exercises1 exercises2 : list Exercise) :
  exercises1 ≡ₚ exercises2 →
  calculateTotalDuration exercises1 = calculateTotalDuration exercises2.
Proof.
  intros Hperm. unfold calculateTotalDuration.
  rewrite (fold_addExercise_Permutation _ _ Hperm), (Permutation_length Hperm).
  done.
Qed.

(** X29.  With targets that are not negative the estimate is not
    negative (the empty list gives 0 although its total is -10 s), and
    one more exercise never lowers it. *)
Theorem estimate_grows_with_the_exercises (exercises : list Exercise)
    (exercise : Exercise) :
  Forall (λ e, 0 ≤ default 0 (ex_duration e) ∧ 0 ≤ default 0 (ex_reps e))
    (exercise :: exercises) →
  calculateTotalDuration [] = 0
  ∧ 0 ≤ calculateTotalDuration exercises
  ∧ calculateTotalDuration exercises
    ≤ calculateTotalDuration (exercises ++ [exercise]).
Proof.
  intros Hall.
  assert (Hcontrib : Forall (λ e, 0 ≤ addExercise 0 e) (exercise :: exercises)).
  { eapply Forall_impl; [exact Hall|]. simpl. intros e [Hd Hr].
    unfold addExercise. destruct (truthy_num (ex_duration e)); [lia|].
    destruct (truthy_num (ex_reps e)); lia. }
  apply Forall_cons in Hcontrib as [He Hrest].
  pose proof (fold_addExercise_nonneg exercises Hrest 0) as Hsum.
  unfold calculateTotalDuration. split_and!.
  - reflexivity.
  - change 0 with (ceil_div (-10) 60) at 1. apply ceil_div_60_mono. lia.
  - apply ceil_div_60_mono. rewrite fold_addExercise_app, length_app. simpl.
    lia.
Qed.

End EstimateMore.

(* ===================================================================== *)
(** * Instances of the further properties on the cases of the tests *)
(* ===================================================================== *)

Section MoreInstances.
Import Models Js IRepositories RepositoryMethods SessionRepository.
Import SessionService SessionServiceRest RoutineService RoutineServiceRest.
Import SessionScreenHandlers ExerciseService.
Import Cases MoreCases.
Local Open Scope Z_scope.

Lemma unfinished_has_no_completed_row :
  ∀ r, r ∈ unfinished → completed r ≠ 1.
Proof.
  intros r Hr. unfold unfinished in Hr.
  rewrite !elem_of_cons, elem_of_nil in Hr.
  destruct Hr as [->|[->|[]]]; discriminate.
Defined.

Lemma statistics_of_unfinished_sessions :
  getStatistics today unfinished
  = {| totalSessions := 2; currentStreak := 0; longestStreak := 0;
       lastSessionDate := None |}.
Proof.
  exact (statistics_without_completed_session today unfinished
           unfinished_has_no_completed_row).
Defined.

Lemma history_last_day : lastSessionDate (getStatistics today history) = Some today.
Proof. vm_compute. reflexivity. Defined.

Lemma currentStreak_of_history_days :
  (∀ j, 0 ≤ j < currentStreak (getStatistics today history) →
        completedOn history (today - j))
  ∧ (1 ≤ currentStreak (getStatistics today history) →
     ¬ completedOn history (today - currentStreak (getStatistics today history))).
Proof.
  exact (currentStreak_counts_consecutive_days today history today
           history_last_day).
Defined.

Lemma shuffled_history_dates : uniqueDates shuffledHistory = uniqueDates history.
Proof. vm_compute. reflexivity. Defined.

Lemma shuffled_history_days :
  ∀ d, completedOn history d ↔ completedOn shuffledHistory d.
Proof.
  intros d. rewrite <- !uniqueDates_elem_of, shuffled_history_dates. reflexivity.
Defined.

Lemma statistics_of_shuffled_history :
  length shuffledHistory ≠ length history
  ∧ currentStreak (getStatistics today history)
    = currentStreak (getStatistics today shuffledHistory)
  ∧ longestStreak (getStatistics today history)
    = longestStreak (getStatistics today shuffledHistory)
  ∧ lastSessionDate (getStatistics today history)
    = lastSessionDate (getStatistics today shuffledHistory).
Proof.
  split; [discriminate|].
  exact (statistics_depend_on_completed_days today history shuffledHistory
           shuffled_history_days).
Defined.

Lemma finish_twice_case :
  s_endTime <$> session_getById
      (finishSession (finishSession sessions2 (now + 1000) "1").1
         (now + 2000) "1").1 "1"
  = Some (Some (now + 2000)).
Proof.
  apply (finishSession_twice_overwrites_end_time sessions2 (now + 1000)
           (now + 2000) "1" session2).
  reflexivity.
Defined.

Lemma last_write_wins_case :
  markExerciseComplete
    (markExerciseComplete sessions1 "1" "1" (Some 10) None).1
    "1" "1" (Some 12) None
  = markExerciseComplete sessions1 "1" "1" (Some 12) None.
Proof.
  apply (markExerciseComplete_last_write_wins sessions1 "1" session1).
  reflexivity.
Defined.

Lemma history_minutes_case :
  HistoryScreen.floor_minutes (now + 340000 - now)
  < calculateSessionDuration timedSession.
Proof.
  destruct (history_minutes_against_service_minutes timedSession (now + 340000)
              eq_refl) as (_ & _ & _ & Hless).
  apply Hless. vm_compute. discriminate.
Defined.

Lemma initial_sessions_ids_issued :
  MockSessionMethods.ids_issued MockSessionRepository.initial.
Proof. split; [apply NoDup_nil_2 | constructor]. Defined.

Lemma createSession_fresh_case :
  session_getById
    (createSession MockSessionRepository.initial now "1").1 "1"
  = Some session1.
Proof.
  destruct (createSession_hands_out_a_fresh_id MockSessionRepository.initial
              now "1" initial_sessions_ids_issued) as (_ & Hnew & _).
  exact Hnew.
Defined.

Lemma hasCompletedToday_case :
  hasCompletedToday
    (finishSession (createSession MockSessionRepository.initial now "1").1
       (now + 600000) "1").1 today = true.
Proof.
  destruct (hasCompletedToday_after_finish MockSessionRepository.initial
              now (now + 600000) "1" initial_sessions_ids_issued) as [Hdone _].
  exact Hdone.
Defined.

Lemma handlers_case :
  w_currentIndex (handleSkip (loaded catalog0 "1")) = 1%nat
  ∧ (w_currentIndex (handleSkip (loaded catalog0 "1"))
     < length (w_exercises (handleSkip (loaded catalog0 "1"))))%nat.
Proof.
  destruct (handlers_keep_the_index_in_range sessions1 now (loaded catalog0 "1"))
    as (Hrange & _).
  - simpl. lia.
  - split; [reflexivity | exact Hrange].
Defined.

Lemma complete_without_session_case :
  completeTimes 3 sessions1 now (withoutSession catalog0)
  = (sessions1, withoutSession catalog0)
  ∧ handleSkip (withoutSession []) = withoutSession []
  ∧ w_currentIndex (handleSkip (withoutSession catalog0)) = 1%nat.
Proof.
  destruct (handleComplete_without_exercise_or_session sessions1 now
              (withoutSession catalog0) 3) as (Hcomplete & _ & Hskip).
  destruct (handleComplete_without_exercise_or_session sessions1 now
              (withoutSession []) 0) as (_ & Hnone & _).
  split; [apply Hcomplete; right; reflexivity|].
  split; [apply Hnone; reflexivity|].
  rewrite Hskip; [reflexivity | simpl; lia].
Defined.

Lemma catalog_ids_distinct : NoDup (ex_id <$> catalog0).
Proof.
  repeat (apply NoDup_cons; split;
          [rewrite ?elem_of_cons, elem_of_nil; intros Hin;
           repeat (destruct Hin as [Hin|Hin]; [discriminate Hin|]); exact Hin|]).
  apply NoDup_nil_2.
Defined.

Lemma whole_workout_case :
  w_isComplete (completeTimes 4 sessions1 now (loaded catalog0 "1")).2 = true
  ∧ (s_completed <$> session_getById
        (completeTimes 4 sessions1 now (loaded catalog0 "1")).1 "1") = Some true.
Proof.
  destruct (completing_every_exercise_finishes_the_session sessions1 now
              catalog0 "1" session1) as [Hcomplete Hstored].
  - discriminate.
  - discriminate.
  - exact catalog_ids_distinct.
  - reflexivity.
  - reflexivity.
  - split; [exact Hcomplete|].
    exact (f_equal (fmap s_completed) Hstored).
Defined.

Lemma morning_routine_resolves :
  getRoutineExercises routines0 catalog0 "1"
  = Ok (ExerciseServiceRest.getExercisesForRoutine catalog0
          ["1"; "3"; "4"]%string).
Proof.
  destruct (stale_exercise_ids_are_skipped routines0 catalog0 "1" morningRoutine)
    as [Hsame _].
  - reflexivity.
  - exact Hsame.
Defined.

Lemma initial_routines_ids_issued :
  MockRoutineMethods.ids_issued MockRoutineRepository.initial.
Proof.
  split.
  - repeat (apply NoDup_cons; split;
            [rewrite ?elem_of_cons, elem_of_nil; intros Hin;
             repeat (destruct Hin as [Hin|Hin]; [discriminate Hin|]); exact Hin|]).
    apply NoDup_nil_2.
  - constructor; [exists 1; split; reflexivity|].
    constructor; [exists 2; split; reflexivity|]. constructor.
Defined.

Lemma two_known_ids :
  all_known catalog0 ["1"; "2"]%string.
Proof.
  constructor; [eexists; reflexivity|].
  constructor; [eexists; reflexivity | constructor].
Defined.

Lemma created_routine_case :
  ∃ exercises,
    getRoutineExercises routines1 catalog0 "3" = Ok exercises
    ∧ length exercises = 2%nat.
Proof.
  destruct (created_routine_resolves routines0 catalog0 "My Routine"
              ["1"; "2"]%string initial_routines_ids_issued eq_refl
              ltac:(discriminate) two_known_ids)
    as (_ & _ & (exercises & Hres & Hlen & _) & _).
  exists exercises. split; [exact Hres | exact Hlen].
Defined.

Lemma create_then_delete_case :
  MockRoutineRepository.routines (deleteRoutine routines1 "3").1
  = MockRoutineRepository.routines routines0.
Proof.
  pose proof (create_then_delete_restores_the_routines routines0 catalog0
                "My Routine" ["1"; "2"]%string initial_routines_ids_issued
                eq_refl ltac:(discriminate) two_known_ids) as Hrestored.
  exact (f_equal (λ r, MockRoutineRepository.routines r.1) Hrestored).
Defined.

Lemma update_morning_routine_case :
  (updateRoutineExercises routines0 catalog0 "1" []).2 = Ok tt
  ∧ r_exerciseIds <$> routine_getById
      (updateRoutineExercises routines0 catalog0 "1" []).1 "1" = Some [].
Proof.
  destruct (updateRoutineExercises_outcomes routines0 catalog0 "1" [])
    as (_ & _ & Hok).
  destruct (Hok morningRoutine eq_refl ltac:(constructor)) as (Hres & Hget & _).
  split; [exact Hres|]. rewrite Hget. reflexivity.
Defined.

Lemma estimate_order_case :
  calculateTotalDuration plankAndHold = calculateTotalDuration (reverse plankAndHold).
Proof.
  apply estimate_ignores_the_order. symmetry. apply reverse_Permutation.
Defined.

Lemma estimate_growth_case :
  calculateTotalDuration [timedExercise "1" "Plank" 30]
  ≤ calculateTotalDuration plankAndHold.
Proof.
  destruct (estimate_grows_with_the_exercises [timedExercise "1" "Plank" 30]
              (timedExercise "2" "Hold" 60)) as (_ & _ & Hgrow).
  - repeat constructor; simpl; lia.
  - exact Hgrow.
Defined.

End MoreInstances.
